(** * r2c: release tags merged with changelog notes

    A shallow embedding of [r2c.go].  Go strings are byte sequences, so a Go
    [string] is a [String.string] (a list of 8-bit [ascii]); a slice is a
    [list] (a nil slice and an empty one are both [nil]); the pointer
    [*ReleaseNotes] is an [option]: every pointer of the store is allocated
    either by [json.Unmarshal] or by [&ReleaseNotes{}] in an insert function,
    one per release, so two releases never share their notes.  The package
    variable [releases] is threaded through the functions that touch it.

    The functions of the Go library that [r2c.go] calls are embedded as far
    as the program uses them: [strings.TrimRight], [strings.TrimSpace] and
    [strings.Contains]; [bufio.Scanner] with [bufio.ScanLines]; the one
    pattern given to [regexp.MustCompile]; [json.Marshal] and
    [json.Unmarshal] on the type [[]Release].  The network and the file
    system are not modelled: [parseChangelog] takes the changelog text and
    the store, and gives the store back. *)

From Stdlib Require Import String Ascii List Bool Arith NArith Lia.
Import ListNotations.

Local Open Scope list_scope.
Local Open Scope string_scope.

(** ** Byte-string helpers of the Go runtime and of package [strings] *)

Module GoStrings.

(** [s[n:]] for [n <= len(s)]. *)
Fixpoint sliceFrom (n : nat) (s : string) : string :=
  match n, s with
  | O, _ => s
  | S _, EmptyString => EmptyString
  | S n', String _ s' => sliceFrom n' s'
  end.

(** [s[:n]] for [n <= len(s)]. *)
Fixpoint sliceTo (n : nat) (s : string) : string :=
  match n, s with
  | O, _ => EmptyString
  | S _, EmptyString => EmptyString
  | S n', String c s' => String c (sliceTo n' s')
  end.

(** [strings.HasPrefix]; also the value of [len(s) >= len(p) && s[:len(p)] == p]. *)
Fixpoint HasPrefix (s p : string) {struct p} : bool :=
  match p, s with
  | EmptyString, _ => true
  | String _ _, EmptyString => false
  | String a p', String b s' => Ascii.eqb a b && HasPrefix s' p'
  end.

(** [strings.Contains(s, substr)]. *)
Fixpoint Contains (s substr : string) : bool :=
  HasPrefix s substr ||
  match s with
  | EmptyString => false
  | String _ s' => Contains s' substr
  end.

Definition byteIn (c : ascii) (set : list ascii) : bool :=
  existsb (Ascii.eqb c) set.

(** [strings.TrimRight(s, cutset)] for a cutset of ASCII bytes: the longest
    suffix made of cutset bytes is removed. *)
Fixpoint TrimRight (s : string) (cutset : list ascii) : string :=
  match s with
  | EmptyString => EmptyString
  | String c s' =>
      match TrimRight s' cutset with
      | EmptyString => if byteIn c cutset then EmptyString else String c EmptyString
      | t => String c t
      end
  end.

(** The UTF-8 encodings of the code points for which [unicode.IsSpace] holds:
    the six ASCII ones, U+0085, U+00A0, U+1680, U+2000..U+200A, U+2028,
    U+2029, U+202F, U+205F and U+3000.  A byte sequence that is not valid
    UTF-8 decodes to U+FFFD, which is no space. *)
Definition b (n : nat) : ascii := ascii_of_nat n.

Definition spaceEncodings : list string :=
  [ String (b 9) ""; String (b 10) ""; String (b 11) ""; String (b 12) "";
    String (b 13) ""; String (b 32) "";
    String (b 194) (String (b 133) "");
    String (b 194) (String (b 160) "");
    String (b 225) (String (b 154) (String (b 128) ""));
    String (b 226) (String (b 128) (String (b 128) ""));
    String (b 226) (String (b 128) (String (b 129) ""));
    String (b 226) (String (b 128) (String (b 130) ""));
    String (b 226) (String (b 128) (String (b 131) ""));
    String (b 226) (String (b 128) (String (b 132) ""));
    String (b 226) (String (b 128) (String (b 133) ""));
    String (b 226) (String (b 128) (String (b 134) ""));
    String (b 226) (String (b 128) (String (b 135) ""));
    String (b 226) (String (b 128) (String (b 136) ""));
    String (b 226) (String (b 128) (String (b 137) ""));
    String (b 226) (String (b 128) (String (b 138) ""));
    String (b 226) (String (b 128) (String (b 168) ""));
    String (b 226) (String (b 128) (String (b 169) ""));
    String (b 226) (String (b 128) (String (b 175) ""));
    String (b 226) (String (b 129) (String (b 159) ""));
    String (b 227) (String (b 128) (String (b 128) "")) ].

(** The space at the front of [s], if [s] starts with one. *)
Definition leadingSpace (s : string) : option string :=
  find (HasPrefix s) spaceEncodings.

(** [strings.TrimLeftFunc(s, unicode.IsSpace)]: at most [fuel] spaces are
    removed, and a space has at least one byte. *)
Fixpoint trimLeftSpace (fuel : nat) (s : string) : string :=
  match fuel with
  | O => s
  | S fuel' =>
      match leadingSpace s with
      | Some sp => trimLeftSpace fuel' (sliceFrom (String.length sp) s)
      | None => s
      end
  end.

(** [strings.TrimRightFunc(s, unicode.IsSpace)]: [s] is cut at the first
    position from which only spaces follow. *)
Fixpoint allSpaces (fuel : nat) (s : string) : bool :=
  match fuel with
  | O => match s with EmptyString => true | _ => false end
  | S fuel' =>
      match s with
      | EmptyString => true
      | _ => match leadingSpace s with
             | Some sp => allSpaces fuel' (sliceFrom (String.length sp) s)
             | None => false
             end
      end
  end.

(** [strings.TrimRightFunc(s, unicode.IsSpace)]. *)
Fixpoint trimRightSpace (s : string) : string :=
  match s with
  | EmptyString => EmptyString
  | String c s' =>
      if allSpaces (String.length s) s then EmptyString else String c (trimRightSpace s')
  end.

(** [strings.TrimSpace(s)]. *)
Definition TrimSpace (s : string) : string :=
  trimRightSpace (trimLeftSpace (String.length s) s).

End GoStrings.

(** ** [bufio.Scanner] with the default split function [bufio.ScanLines] *)

Module Bufio.

Definition newline : ascii := ascii_of_nat 10.
Definition carriageReturn : ascii := ascii_of_nat 13.

(** [bufio.MaxScanTokenSize]: the scanner's buffer never grows beyond it. *)
Definition MaxScanTokenSize : N := 65536.

(** The input cut at every ["\n"]; the bytes after the last one are a line
    of their own unless there are none.  [cur] is the line read so far. *)
Fixpoint splitLines (cur s : string) : list string :=
  match s with
  | EmptyString => match cur with EmptyString => [] | _ => [cur] end
  | String c s' =>
      if Ascii.eqb c newline then cur :: splitLines EmptyString s'
      else splitLines (cur ++ String c EmptyString) s'
  end.

(** [dropCR]: one trailing ["\r"] is removed. *)
Fixpoint dropCR (s : string) : string :=
  match s with
  | EmptyString => EmptyString
  | String c EmptyString => if Ascii.eqb c carriageReturn then EmptyString else s
  | String c s' => String c (dropCR s')
  end.

(** A line of [MaxScanTokenSize] bytes or more fills the buffer before its
    end is seen: [Scan] then fails with [ErrTooLong] and returns false. *)
Definition fits (l : string) : bool :=
  N.ltb (N.of_nat (String.length l)) MaxScanTokenSize.

Fixpoint takeFitting (ls : list string) : list string :=
  match ls with
  | [] => []
  | l :: ls' => if fits l then l :: takeFitting ls' else []
  end.

(** The values of [scanner.Text()] over the iterations of
    [for scanner.Scan() { ... }]. *)
Definition scanTexts (input : string) : list string :=
  map dropCR (takeFitting (splitLines EmptyString input)).

End Bufio.

(** ** The pattern [[0-9]+\.[0-9]+\.[0-9]+] of package [regexp] *)

Module Regexp.

Definition isDigit (c : ascii) : bool :=
  Nat.leb 48 (nat_of_ascii c) && Nat.leb (nat_of_ascii c) 57.

Definition dot : ascii := ascii_of_nat 46.

(** The longest run of digits at the front of [s], and what follows it:
    the greedy [[0-9]+] takes the whole run, and cannot give a digit back
    since what follows it in the pattern is never a digit. *)
Fixpoint spanDigits (s : string) : string * string :=
  match s with
  | EmptyString => (EmptyString, EmptyString)
  | String c s' =>
      if isDigit c then let (d, r) := spanDigits s' in (String c d, r)
      else (EmptyString, s)
  end.

(** [[0-9]+\.]: a non-empty run of digits and a dot. *)
Definition digitsDot (s : string) : option (string * string) :=
  match spanDigits s with
  | (EmptyString, _) => None
  | (d, String c r) => if Ascii.eqb c dot then Some (d, r) else None
  | (_, EmptyString) => None
  end.

(** The match of the pattern that starts at the first byte of [s]. *)
Definition matchHere (s : string) : option string :=
  match digitsDot s with
  | None => None
  | Some (d1, r1) =>
      match digitsDot r1 with
      | None => None
      | Some (d2, r2) =>
          match spanDigits r2 with
          | (EmptyString, _) => None
          | (d3, _) => Some (d1 ++ String dot (d2 ++ String dot d3))
          end
      end
  end.

(** [validVersion.Find]: the leftmost match, [None] for Go's nil. *)
Fixpoint Find (s : string) : option string :=
  match matchHere s with
  | Some m => Some m
  | None =>
      match s with
      | EmptyString => None
      | String _ s' => Find s'
      end
  end.

(** [validVersion.MatchString]. *)
Definition MatchString (s : string) : bool :=
  match Find s with Some _ => true | None => false end.

(** [string(validVersion.Find([]byte(s)))]: a nil slice converts to [""]. *)
Definition FindString (s : string) : string :=
  match Find s with Some m => m | None => EmptyString end.

End Regexp.

(** ** The data model *)

Record Commit := mkCommit {
  Sha : string;
  Url : string
}.

Record ReleaseNotes := mkReleaseNotes {
  ReleaseName : string;
  Version : string;
  Fixes : list string;
  Features : list string;
  Maintenance : list string;
  Changes : list string
}.

(** The fields [Commit] and [ReleaseNotes] of the Go struct carry the struct's
    name in front, since they are named like their types. *)
Record Release := mkRelease {
  Name : string;
  ZipballUrl : string;
  TarballUrl : string;
  Release_Commit : Commit;
  Release_ReleaseNotes : option ReleaseNotes
}.

(** [&ReleaseNotes{}]. *)
Definition zeroReleaseNotes : ReleaseNotes :=
  mkReleaseNotes "" "" [] [] [] [].

(** The notes [releases[i].ReleaseNotes] points to once the nil check of an
    insert function has run. *)
Definition notesOrZero (r : Release) : ReleaseNotes :=
  match Release_ReleaseNotes r with
  | Some n => n
  | None => zeroReleaseNotes
  end.

Definition withNotes (r : Release) (n : ReleaseNotes) : Release :=
  mkRelease (Name r) (ZipballUrl r) (TarballUrl r) (Release_Commit r) (Some n).

(** ** The insert functions

    Each one ranges over the whole of [releases]; the element at an index is
    read and written at that index only, so the loop is a map. *)

Fixpoint insertFix (releases : list Release) (release name line : string)
  : list Release :=
  match releases with
  | [] => []
  | r :: rest =>
      (if Name r =? name then
         let n := notesOrZero r in
         withNotes r (mkReleaseNotes release name
                        (Fixes n ++ [line])%list (Features n) (Maintenance n) (Changes n))
       else r) :: insertFix rest release name line
  end.

Fixpoint insertFeature (releases : list Release) (release name line : string)
  : list Release :=
  match releases with
  | [] => []
  | r :: rest =>
      (if Name r =? name then
         let n := notesOrZero r in
         withNotes r (mkReleaseNotes release name
                        (Fixes n) (Features n ++ [line])%list (Maintenance n) (Changes n))
       else r) :: insertFeature rest release name line
  end.

Fixpoint insertMaintenance (releases : list Release) (release name line : string)
  : list Release :=
  match releases with
  | [] => []
  | r :: rest =>
      (if Name r =? name then
         let n := notesOrZero r in
         withNotes r (mkReleaseNotes release name
                        (Fixes n) (Features n) (Maintenance n ++ [line])%list (Changes n))
       else r) :: insertMaintenance rest release name line
  end.

Fixpoint insertChange (releases : list Release) (release name line : string)
  : list Release :=
  match releases with
  | [] => []
  | r :: rest =>
      (if Name r =? name then
         let n := notesOrZero r in
         withNotes r (mkReleaseNotes release name
                        (Fixes n) (Features n) (Maintenance n) (Changes n ++ [line])%list)
       else r) :: insertChange rest release name line
  end.

(** ** The changelog parser *)

(** The local variables of [parseChangelog] and the package variable
    [releases]. *)
Record State := mkState {
  release : string;
  name : string;
  comment : string;
  fixes : bool;
  features : bool;
  maintenance : bool;
  releases : list Release
}.

Definition initial (rs : list Release) : State :=
  mkState "" "" "" false false false rs.

(** The cutset [" \t\n\v\f\r"]. *)
Definition cutset : list ascii :=
  map ascii_of_nat [32; 9; 10; 11; 12; 13].

Definition hash : ascii := ascii_of_nat 35.
Definition star : ascii := ascii_of_nat 42.

(** [len(line) >= 1 && line[0] != '#' && line[0] != '*'] *)
Definition isContinuation (line : string) : bool :=
  match line with
  | EmptyString => false
  | String c _ => negb (Ascii.eqb c hash) && negb (Ascii.eqb c star)
  end.

(** [len(line) >= 3 && line[:3] == "## "] *)
Definition isReleaseHeading (line : string) : bool :=
  Nat.leb 3 (String.length line) && (GoStrings.sliceTo 3 line =? "## ").

(** [len(line) >= 4 && line[:4] == "### "] *)
Definition isCategoryHeading (line : string) : bool :=
  Nat.leb 4 (String.length line) && (GoStrings.sliceTo 4 line =? "### ").

(** [len(line) >= 2 && line[:2] == "* "] *)
Definition isBullet (line : string) : bool :=
  Nat.leb 2 (String.length line) && (GoStrings.sliceTo 2 line =? "* ").

(** The block under "handle buffered comments": the store it leaves. *)
Definition flushComment (st : State) : list Release :=
  if comment st =? "" then releases st
  else if fixes st then insertFix (releases st) (release st) (name st) (comment st)
  else if features st then insertFeature (releases st) (release st) (name st) (comment st)
  else if maintenance st then insertMaintenance (releases st) (release st) (name st) (comment st)
  else insertChange (releases st) (release st) (name st) (comment st).

(** The block under "Releases". *)
Definition releaseHeading (st : State) (line : string) : State :=
  if isReleaseHeading line then
    let release' := GoStrings.sliceFrom 3 line in
    mkState release' ("v" ++ Regexp.FindString release') "" false false false
            (releases st)
  else st.

(** The block under "Fixes / Features / Maintenance". *)
Definition categoryHeading (st : State) (line : string) : State :=
  if isCategoryHeading line then
    if GoStrings.Contains line "Fixes" then
      mkState (release st) (name st) "" true false false (releases st)
    else if GoStrings.Contains line "Features" then
      mkState (release st) (name st) "" false true false (releases st)
    else if GoStrings.Contains line "Chore & Maintenance" then
      mkState (release st) (name st) "" false false true (releases st)
    else st
  else st.

(** The block under "Comments". *)
Definition bullet (st : State) (line : string) : State :=
  if isBullet line then
    mkState (release st) (name st) (GoStrings.sliceFrom 2 line)
            (fixes st) (features st) (maintenance st) (releases st)
  else st.

(** The body of the scan loop from the blank-line test on, for the value
    [line] of the trimmed text. *)
Definition processLine (st : State) (line : string) : State :=
  if Nat.eqb (String.length line) 0 then st
  else if isContinuation line then
    mkState (release st) (name st)
            (comment st ++ String Bufio.newline (GoStrings.TrimSpace line))
            (fixes st) (features st) (maintenance st) (releases st)
  else
    let st1 := mkState (release st) (name st) (comment st)
                       (fixes st) (features st) (maintenance st) (flushComment st) in
    let st2 := releaseHeading st1 line in
    if negb (Regexp.MatchString (release st2)) then st2
    else bullet (categoryHeading st2 line) line.

(** One iteration of [for scanner.Scan() { ... }] on [scanner.Text()]. *)
Definition loopBody (st : State) (text : string) : State :=
  processLine st (GoStrings.TrimRight text cutset).

(** The scan loop over the texts of the scanner, then the function return:
    nothing follows the loop. *)
Definition parseLines (texts : list string) (rs : list Release) : list Release :=
  releases (fold_left loopBody texts (initial rs)).

Definition parseChangelog (changelog : string) (rs : list Release) : list Release :=
  parseLines (Bufio.scanTexts changelog) rs.

(** A release as the tag list gives it, with nothing but its name. *)
Definition tag (n : string) : Release :=
  mkRelease n "" "" (mkCommit "" "") None.

Definition nl : string := String Bufio.newline "".

(** ** UTF-8 as package [unicode/utf8] reads it *)

Module Utf8.

Definition code (c : ascii) : N := N_of_ascii c.

Definition between (lo hi : N) (c : ascii) : bool :=
  N.leb lo (code c) && N.leb (code c) hi.

(** Below [utf8.RuneSelf]. *)
Definition isASCII (c : ascii) : bool := N.ltb (code c) 128.

(** A continuation byte, 0x80 to 0xBF. *)
Definition isCont (c : ascii) : bool := between 128 191 c.

(** For a leading byte: the size of its sequence and the range accepted for
    the second byte, as in the tables [first] and [acceptRanges]. *)
Definition lead (c : ascii) : option (nat * N * N) :=
  if between 194 223 c then Some (2, 128%N, 191%N)
  else if between 224 224 c then Some (3, 160%N, 191%N)
  else if between 225 236 c then Some (3, 128%N, 191%N)
  else if between 237 237 c then Some (3, 128%N, 159%N)
  else if between 238 239 c then Some (3, 128%N, 191%N)
  else if between 240 240 c then Some (4, 144%N, 191%N)
  else if between 241 243 c then Some (4, 128%N, 191%N)
  else if between 244 244 c then Some (4, 128%N, 143%N)
  else None.

(** The size [utf8.DecodeRuneInString] returns on a string that starts with
    a byte that is not ASCII; [None] when it returns [RuneError] with size 1,
    the string not starting with a well-formed sequence. *)
Definition seqLen (s : string) : option nat :=
  match s with
  | String c0 (String c1 r1) =>
      match lead c0 with
      | None => None
      | Some (n, lo, hi) =>
          if negb (between lo hi c1) then None
          else if Nat.eqb n 2 then Some 2
          else
            match r1 with
            | String c2 r2 =>
                if negb (isCont c2) then None
                else if Nat.eqb n 3 then Some 3
                else
                  match r2 with
                  | String c3 _ => if isCont c3 then Some 4 else None
                  | EmptyString => None
                  end
            | EmptyString => None
            end
      end
  | _ => None
  end.

(** A string as a decoding loop walks it: ASCII bytes, well-formed
    sequences of two to four bytes, and bytes that start no such sequence. *)
Inductive piece :=
| One (c : ascii)
| Seq (bytes : string)
| Bad (c : ascii).

Fixpoint pieces (fuel : nat) (s : string) : list piece :=
  match fuel, s with
  | S fuel', String c r =>
      if isASCII c then One c :: pieces fuel' r
      else
        match seqLen s with
        | Some n => Seq (GoStrings.sliceTo n s)
                    :: pieces fuel' (GoStrings.sliceFrom n s)
        | None => Bad c :: pieces fuel' r
        end
  | _, _ => []
  end.

(** U+FFFD, [utf8.RuneError], encoded. *)
Definition replacement : string :=
  String (ascii_of_nat 239) (String (ascii_of_nat 191) (String (ascii_of_nat 189) "")).

Definition pieceBytes (p : piece) : string :=
  match p with
  | One c => String c ""
  | Seq bytes => bytes
  | Bad _ => replacement
  end.

Definition isBad (p : piece) : bool :=
  match p with Bad _ => true | _ => false end.

(** [utf8.ValidString]. *)
Definition ValidString (s : string) : bool :=
  negb (existsb isBad (pieces (String.length s) s)).

(** The string with every byte that starts no well-formed sequence replaced
    by U+FFFD: what a JSON string keeps of a Go string. *)
Definition coerce (s : string) : string :=
  String.concat "" (map pieceBytes (pieces (String.length s) s)).

(** [utf8.EncodeRune]. *)
Definition byteOf (n : N) : ascii := ascii_of_N n.

Definition EncodeRune (r : N) : string :=
  if N.ltb r 128 then String (byteOf r) ""
  else if N.ltb r 2048 then
    String (byteOf (192 + N.shiftr r 6))
      (String (byteOf (128 + N.land r 63)) "")
  else if (N.leb 55296 r && N.leb r 57343) || N.ltb 1114111 r then replacement
  else if N.ltb r 65536 then
    String (byteOf (224 + N.shiftr r 12))
      (String (byteOf (128 + N.land (N.shiftr r 6) 63))
        (String (byteOf (128 + N.land r 63)) ""))
  else
    String (byteOf (240 + N.shiftr r 18))
      (String (byteOf (128 + N.land (N.shiftr r 12) 63))
        (String (byteOf (128 + N.land (N.shiftr r 6) 63))
          (String (byteOf (128 + N.land r 63)) ""))).

End Utf8.

(** ** [json.Marshal] and [json.Unmarshal] on [[]Release]

    What package [encoding/json] does for the struct tags of the data model:
    the field names, [omitempty], and the text of a JSON document. *)

Module Json.

Definition quoteMark : ascii := ascii_of_nat 34.
Definition backslash : ascii := ascii_of_nat 92.

(** *** The encoder *)

Definition hex (n : N) : ascii :=
  match String.get (N.to_nat n) "0123456789abcdef" with
  | Some c => c
  | None => "0"%char
  end.

(** [htmlSafeSet]: the ASCII bytes written as they are; the others are the
    control bytes, the quote, the backslash and, since [Marshal] escapes
    HTML, ['<'], ['>'] and ['&']. *)
Definition htmlSafe (c : ascii) : bool :=
  N.leb 32 (Utf8.code c)
  && negb (GoStrings.byteIn c
             [quoteMark; backslash; "&"%char; "<"%char; ">"%char]).

(** The short escapes and, for the other bytes that are not safe, the escape
    with four hex digits. *)
Definition escapeASCII (c : ascii) : string :=
  if htmlSafe c then String c ""
  else if Ascii.eqb c backslash || Ascii.eqb c quoteMark then
    String backslash (String c "")
  else if Ascii.eqb c (ascii_of_nat 8) then String backslash "b"
  else if Ascii.eqb c (ascii_of_nat 12) then String backslash "f"
  else if Ascii.eqb c (ascii_of_nat 10) then String backslash "n"
  else if Ascii.eqb c (ascii_of_nat 13) then String backslash "r"
  else if Ascii.eqb c (ascii_of_nat 9) then String backslash "t"
  else String backslash "u00" ++ String (hex (N.shiftr (Utf8.code c) 4))
                   (String (hex (N.land (Utf8.code c) 15)) "").

(** U+2028 and U+2029, encoded. *)
Definition lineSeparator : string :=
  String (ascii_of_nat 226) (String (ascii_of_nat 128) (String (ascii_of_nat 168) "")).
Definition paragraphSeparator : string :=
  String (ascii_of_nat 226) (String (ascii_of_nat 128) (String (ascii_of_nat 169) "")).

Definition escapePiece (p : Utf8.piece) : string :=
  match p with
  | Utf8.One c => escapeASCII c
  | Utf8.Seq bytes =>
      if bytes =? lineSeparator then String backslash "u2028"
      else if bytes =? paragraphSeparator then String backslash "u2029"
      else bytes
  | Utf8.Bad _ => String backslash "ufffd"
  end.

(** A Go string as a JSON string literal, as the encoder writes it with
    [escapeHTML] set: a byte that starts no well-formed sequence is written
    as the escape of U+FFFD, and U+2028 and U+2029 are escaped. *)
Definition quote (s : string) : string :=
  String quoteMark
    (String.concat "" (map escapePiece (Utf8.pieces (String.length s) s))
     ++ String quoteMark "").

(** One field of a struct: nothing when [omitempty] applies. *)
Definition member (key : string) (omitted : bool) (val : string) : list string :=
  if omitted then []
  else [String quoteMark key ++ String quoteMark (String ":" val)].

Definition object (members : list string) : string :=
  "{" ++ String.concat "," members ++ "}".

Definition array (elems : list string) : string :=
  "[" ++ String.concat "," elems ++ "]".

Definition noEntries (l : list string) : bool :=
  match l with [] => true | _ => false end.

Definition encodeStrings (l : list string) : string :=
  array (map quote l).

(** [omitempty] never omits a struct, so ["commit"] is always written. *)
Definition encodeCommit (c : Commit) : string :=
  object (member "sha" (Sha c =? "") (quote (Sha c))
          ++ member "url" (Url c =? "") (quote (Url c)))%list.

Definition encodeReleaseNotes (n : ReleaseNotes) : string :=
  object (member "release_name" (ReleaseName n =? "") (quote (ReleaseName n))
          ++ member "version" (Version n =? "") (quote (Version n))
          ++ member "fixes" (noEntries (Fixes n)) (encodeStrings (Fixes n))
          ++ member "features" (noEntries (Features n)) (encodeStrings (Features n))
          ++ member "maintenance" (noEntries (Maintenance n))
               (encodeStrings (Maintenance n))
          ++ member "changes" (noEntries (Changes n)) (encodeStrings (Changes n)))%list.

Definition encodeRelease (r : Release) : string :=
  object (member "name" (Name r =? "") (quote (Name r))
          ++ member "zipball_url" (ZipballUrl r =? "") (quote (ZipballUrl r))
          ++ member "tarball_url" (TarballUrl r =? "") (quote (TarballUrl r))
          ++ member "commit" false (encodeCommit (Release_Commit r))
          ++ match Release_ReleaseNotes r with
             | None => []
             | Some n => member "release_notes" false (encodeReleaseNotes n)
             end)%list.

(** [json.Marshal(releases)] for a slice that is not nil. *)
Definition Marshal (rs : list Release) : string :=
  array (map encodeRelease rs).

(** [json.Marshal(releases)] for the nil slice. *)
Definition MarshalNil : string := "null".

(** *** The text of a document *)

#[local] Set Warnings "-register-all".

Inductive value :=
| Null
| Bool (b : bool)
| Number (literal : string)
| Str (s : string)
| Array (elems : list value)
| Object (members : list (string * value)).

Definition isSpace (c : ascii) : bool :=
  GoStrings.byteIn c (map ascii_of_nat [32; 9; 13; 10]).

Fixpoint skipSpace (s : string) : string :=
  match s with
  | EmptyString => EmptyString
  | String c r => if isSpace c then skipSpace r else s
  end.

Definition hexValue (c : ascii) : option N :=
  let n := Utf8.code c in
  if N.leb 48 n && N.leb n 57 then Some (n - 48)%N
  else if N.leb 97 n && N.leb n 102 then Some (n - 87)%N
  else if N.leb 65 n && N.leb n 70 then Some (n - 55)%N
  else None.

(** [getu4]: the number written by a backslash, a ['u'] and four hex
    digits at the front of [s], and what follows them. *)
Definition getu4 (s : string) : option (N * string) :=
  match s with
  | String c0 (String c1 (String h3 (String h2 (String h1 (String h0 r))))) =>
      if Ascii.eqb c0 backslash && Ascii.eqb c1 "u" then
        match hexValue h3, hexValue h2, hexValue h1, hexValue h0 with
        | Some a, Some b, Some c, Some d =>
            Some (4096 * a + 256 * b + 16 * c + d, r)%N
        | _, _, _, _ => None
        end
      else None
  | _ => None
  end.

(** [utf16.IsSurrogate] and [utf16.DecodeRune]. *)
Definition isSurrogate (r : N) : bool := N.leb 55296 r && N.ltb r 57344.

Definition decodeSurrogates (r1 r2 : N) : option N :=
  if N.leb 55296 r1 && N.ltb r1 56320 && N.leb 56320 r2 && N.ltb r2 57344
  then Some ((r1 - 55296) * 1024 + (r2 - 56320) + 65536)%N
  else None.

(** The byte a two-byte escape stands for. *)
Definition simpleEscape (c : ascii) : option ascii :=
  if Ascii.eqb c quoteMark || Ascii.eqb c backslash || Ascii.eqb c "/" then Some c
  else if Ascii.eqb c "b" then Some (ascii_of_nat 8)
  else if Ascii.eqb c "f" then Some (ascii_of_nat 12)
  else if Ascii.eqb c "n" then Some (ascii_of_nat 10)
  else if Ascii.eqb c "r" then Some (ascii_of_nat 13)
  else if Ascii.eqb c "t" then Some (ascii_of_nat 9)
  else None.

Definition prepend (bytes : string) (r : option (string * string))
  : option (string * string) :=
  match r with
  | Some (s, rest) => Some (bytes ++ s, rest)
  | None => None
  end.

(** A string literal from behind its opening quote: its value, as
    [unquote] gives it, and the text behind its closing quote.  A control
    byte ends the scan with a syntax error; bytes that are not UTF-8 are
    read as U+FFFD. *)
Fixpoint parseChars (fuel : nat) (s : string) : option (string * string) :=
  match fuel, s with
  | S fuel', String c r =>
      if Ascii.eqb c quoteMark then Some ("", r)
      else if Ascii.eqb c backslash then
        match r with
        | String e r' =>
            if Ascii.eqb e "u" then
              match getu4 s with
              | None => None
              | Some (u, r2) =>
                  if isSurrogate u then
                    match getu4 r2 with
                    | Some (u2, r3) =>
                        match decodeSurrogates u u2 with
                        | Some rune =>
                            prepend (Utf8.EncodeRune rune) (parseChars fuel' r3)
                        | None => prepend Utf8.replacement (parseChars fuel' r2)
                        end
                    | None => prepend Utf8.replacement (parseChars fuel' r2)
                    end
                  else prepend (Utf8.EncodeRune u) (parseChars fuel' r2)
              end
            else
              match simpleEscape e with
              | Some byte => prepend (String byte "") (parseChars fuel' r')
              | None => None
              end
        | EmptyString => None
        end
      else if N.ltb (Utf8.code c) 32 then None
      else if Utf8.isASCII c then prepend (String c "") (parseChars fuel' r)
      else
        match Utf8.seqLen s with
        | Some n => prepend (GoStrings.sliceTo n s)
                            (parseChars fuel' (GoStrings.sliceFrom n s))
        | None => prepend Utf8.replacement (parseChars fuel' r)
        end
  | _, _ => None
  end.

Definition parseString (s : string) : option (string * string) :=
  parseChars (S (String.length s)) s.

(** A number literal at the front of [s]. *)
Definition parseDigits (s : string) : option (string * string) :=
  match Regexp.spanDigits s with
  | (EmptyString, _) => None
  | (d, r) => Some (d, r)
  end.

Definition parseInt (s : string) : option (string * string) :=
  match s with
  | String "0" r => Some ("0", r)
  | _ => parseDigits s
  end.

Definition parseFrac (s : string) : option (string * string) :=
  match s with
  | String "." r => prepend "." (parseDigits r)
  | _ => Some ("", s)
  end.

Definition parseExp (s : string) : option (string * string) :=
  match s with
  | String e r =>
      if Ascii.eqb e "e" || Ascii.eqb e "E" then
        match r with
        | String sg r' =>
            if Ascii.eqb sg "+" || Ascii.eqb sg "-" then
              prepend (String e (String sg "")) (parseDigits r')
            else prepend (String e "") (parseDigits r)
        | EmptyString => None
        end
      else Some ("", s)
  | EmptyString => Some ("", s)
  end.

Definition parseNumber (s : string) : option (string * string) :=
  let (sign, s1) := match s with
                    | String "-" r => ("-", r)
                    | _ => ("", s)
                    end in
  match parseInt s1 with
  | None => None
  | Some (i, s2) =>
      match parseFrac s2 with
      | None => None
      | Some (f, s3) => prepend (sign ++ i ++ f) (parseExp s3)
      end
  end.

Definition startsWith (c : ascii) (s : string) : bool :=
  match s with
  | String d _ => Ascii.eqb d c
  | EmptyString => false
  end.

(** [maxNestingDepth]: the scanner gives up, with the error "exceeded max
    depth", on an array or object opened inside that many others. *)
Definition maxNestingDepth : N := 10000.

(** A value at the front of [s], after spaces, and the text behind it;
    [depth] is the number of arrays and objects open around it, the length
    of the scanner's [parseState]. *)
Fixpoint parseValue (fuel : nat) (depth : N) (s : string)
  : option (value * string) :=
  match fuel with
  | O => None
  | S fuel' =>
      match skipSpace s with
      | EmptyString => None
      | String c r as t =>
          if Ascii.eqb c quoteMark then
            match parseString r with
            | Some (str, rest) => Some (Str str, rest)
            | None => None
            end
          else if Ascii.eqb c "[" then
            if negb (N.ltb depth maxNestingDepth) then None
            else if startsWith "]" (skipSpace r) then
              Some (Array [], GoStrings.sliceFrom 1 (skipSpace r))
            else
              match parseElements fuel' (N.succ depth) r with
              | Some (vs, rest) => Some (Array vs, rest)
              | None => None
              end
          else if Ascii.eqb c "{" then
            if negb (N.ltb depth maxNestingDepth) then None
            else if startsWith "}" (skipSpace r) then
              Some (Object [], GoStrings.sliceFrom 1 (skipSpace r))
            else
              match parseMembers fuel' (N.succ depth) r with
              | Some (ms, rest) => Some (Object ms, rest)
              | None => None
              end
          else if GoStrings.HasPrefix t "null" then
            Some (Null, GoStrings.sliceFrom 4 t)
          else if GoStrings.HasPrefix t "true" then
            Some (Bool true, GoStrings.sliceFrom 4 t)
          else if GoStrings.HasPrefix t "false" then
            Some (Bool false, GoStrings.sliceFrom 5 t)
          else
            match parseNumber t with
            | Some (lit, rest) => Some (Number lit, rest)
            | None => None
            end
      end
  end

(** The elements of an array from behind ['['] or [','], up to [']']. *)
with parseElements (fuel : nat) (depth : N) (s : string)
  : option (list value * string) :=
  match fuel with
  | O => None
  | S fuel' =>
      match parseValue fuel' depth s with
      | None => None
      | Some (v, r) =>
          match skipSpace r with
          | String d r' =>
              if Ascii.eqb d "," then
                match parseElements fuel' depth r' with
                | Some (vs, rest) => Some (v :: vs, rest)
                | None => None
                end
              else if Ascii.eqb d "]" then Some ([v], r')
              else None
          | EmptyString => None
          end
      end
  end

(** The members of an object from behind ['{'] or [','], up to ['}']. *)
with parseMembers (fuel : nat) (depth : N) (s : string)
  : option (list (string * value) * string) :=
  match fuel with
  | O => None
  | S fuel' =>
      match skipSpace s with
      | String c r =>
          if Ascii.eqb c quoteMark then
            match parseString r with
            | None => None
            | Some (key, r1) =>
                if startsWith ":" (skipSpace r1) then
                  match parseValue fuel' depth
                          (GoStrings.sliceFrom 1 (skipSpace r1)) with
                  | None => None
                  | Some (v, r3) =>
                      match skipSpace r3 with
                      | String d r4 =>
                          if Ascii.eqb d "," then
                            match parseMembers fuel' depth r4 with
                            | Some (ms, rest) => Some ((key, v) :: ms, rest)
                            | None => None
                            end
                          else if Ascii.eqb d "}" then Some ([(key, v)], r4)
                          else None
                      | EmptyString => None
                      end
                  end
                else None
            end
          else None
      | EmptyString => None
      end
  end.

(** [checkValid] and the scan of the decoder: one value, with nothing but
    spaces behind it, and nowhere more than [maxNestingDepth] arrays and
    objects inside one another. *)
Definition parse (data : string) : option value :=
  match parseValue (2 * String.length data + 2) 0 data with
  | Some (v, rest) =>
      match skipSpace rest with
      | EmptyString => Some v
      | _ => None
      end
  | None => None
  end.

(** *** The decoder

    A value is decoded into the Go value that is already there: [null]
    leaves a string or a struct as it is and makes a pointer or a slice nil;
    a key is looked up in the field names without regard to case; a key that
    names no field is skipped; a value of the wrong kind is an
    [UnmarshalTypeError], which [main] answers with [log.Fatalln]. *)

Definition lower (c : ascii) : ascii :=
  if Utf8.between 65 90 c then ascii_of_N (Utf8.code c + 32) else c.

(** The key with its letters folded: upper case to lower case, and the two
    letters outside ASCII that fold to an ASCII one, U+017F to ['s'] and
    U+212A to ['k']. *)
Fixpoint foldKey (key : string) : string :=
  match key with
  | EmptyString => EmptyString
  | String c r =>
      match r with
      | String c1 r1 =>
          if Ascii.eqb c (ascii_of_nat 197) && Ascii.eqb c1 (ascii_of_nat 191)
          then String "s" (foldKey r1)
          else
            match r1 with
            | String c2 r2 =>
                if Ascii.eqb c (ascii_of_nat 226) && Ascii.eqb c1 (ascii_of_nat 132)
                   && Ascii.eqb c2 (ascii_of_nat 170)
                then String "k" (foldKey r2)
                else String (lower c) (foldKey r)
            | EmptyString => String (lower c) (foldKey r)
            end
      | EmptyString => String (lower c) EmptyString
      end
  end.

Definition decodeString (old : string) (v : value) : option string :=
  match v with
  | Str s => Some s
  | Null => Some old
  | _ => None
  end.

(** The elements of an array into the backing array of a slice: element
    [i] is decoded into what the array holds at [i], or into a zero value
    behind its end, where the slice has grown. *)
Fixpoint decodeElements {A} (dec : A -> value -> option A) (zero : A)
  (backing : list A) (vs : list value) : option (list A) :=
  match vs with
  | [] => Some []
  | v :: vs' =>
      let (o, os) := match backing with
                     | [] => (zero, [])
                     | o :: os => (o, os)
                     end in
      match dec o v, decodeElements dec zero os vs' with
      | Some a, Some l => Some (a :: l)
      | _, _ => None
      end
  end.

(** Into a slice, given as its elements [old] and what its backing array
    holds behind them, [behind]: the elements of a longer slice that was
    there before.  The length is set as the array is walked, so that an
    element behind the end of the slice is decoded into what the backing
    array holds there, and a [null] in that place brings the old element
    back; the elements that the new length cuts off stay behind.  The
    empty array gives a new, empty slice, and [null] the nil slice: nothing
    is behind either. *)
Definition decodeSlice {A} (dec : A -> value -> option A) (zero : A)
  (old behind : list A) (v : value) : option (list A * list A) :=
  match v with
  | Array [] => Some ([], [])
  | Array vs =>
      option_map (fun l => (l, skipn (List.length vs) (old ++ behind)))
                 (decodeElements dec zero (old ++ behind) vs)
  | Null => Some ([], [])
  | _ => None
  end.

(** The members of an object into a struct, one after the other. *)
Fixpoint decodeMembers {A} (field : A -> string -> value -> option A)
  (old : A) (ms : list (string * value)) : option A :=
  match ms with
  | [] => Some old
  | (key, v) :: ms' =>
      match field old (foldKey key) v with
      | Some a => decodeMembers field a ms'
      | None => None
      end
  end.

Definition decodeStruct {A} (field : A -> string -> value -> option A)
  (old : A) (v : value) : option A :=
  match v with
  | Object ms => decodeMembers field old ms
  | Null => Some old
  | _ => None
  end.

Definition commitField (c : Commit) (key : string) (v : value) : option Commit :=
  if key =? "sha" then
    option_map (fun s => mkCommit s (Url c)) (decodeString (Sha c) v)
  else if key =? "url" then
    option_map (fun s => mkCommit (Sha c) s) (decodeString (Url c) v)
  else Some c.

(** What the backing arrays of the four slices of a [ReleaseNotes] hold
    behind the ends of the slices, while the notes are decoded into. *)
Record Behind := mkBehind {
  behindFixes : list string;
  behindFeatures : list string;
  behindMaintenance : list string;
  behindChanges : list string
}.

Definition noBehind : Behind := mkBehind [] [] [] [].

Definition notesField (nb : ReleaseNotes * Behind) (key : string) (v : value)
  : option (ReleaseNotes * Behind) :=
  let (n, b) := nb in
  if key =? "release_name" then
    option_map (fun s => (mkReleaseNotes s (Version n) (Fixes n) (Features n)
                            (Maintenance n) (Changes n), b))
               (decodeString (ReleaseName n) v)
  else if key =? "version" then
    option_map (fun s => (mkReleaseNotes (ReleaseName n) s (Fixes n) (Features n)
                            (Maintenance n) (Changes n), b))
               (decodeString (Version n) v)
  else if key =? "fixes" then
    option_map (fun l => (mkReleaseNotes (ReleaseName n) (Version n) (fst l)
                            (Features n) (Maintenance n) (Changes n),
                          mkBehind (snd l) (behindFeatures b)
                            (behindMaintenance b) (behindChanges b)))
               (decodeSlice decodeString "" (Fixes n) (behindFixes b) v)
  else if key =? "features" then
    option_map (fun l => (mkReleaseNotes (ReleaseName n) (Version n) (Fixes n)
                            (fst l) (Maintenance n) (Changes n),
                          mkBehind (behindFixes b) (snd l)
                            (behindMaintenance b) (behindChanges b)))
               (decodeSlice decodeString "" (Features n) (behindFeatures b) v)
  else if key =? "maintenance" then
    option_map (fun l => (mkReleaseNotes (ReleaseName n) (Version n) (Fixes n)
                            (Features n) (fst l) (Changes n),
                          mkBehind (behindFixes b) (behindFeatures b)
                            (snd l) (behindChanges b)))
               (decodeSlice decodeString "" (Maintenance n)
                  (behindMaintenance b) v)
  else if key =? "changes" then
    option_map (fun l => (mkReleaseNotes (ReleaseName n) (Version n) (Fixes n)
                            (Features n) (Maintenance n) (fst l),
                          mkBehind (behindFixes b) (behindFeatures b)
                            (behindMaintenance b) (snd l)))
               (decodeSlice decodeString "" (Changes n) (behindChanges b) v)
  else Some nb.

(** Into the pointer [*ReleaseNotes]: [null] makes it nil, an object is
    decoded into the notes it points to, allocated first when it is nil.
    The backing arrays go with the notes: those of notes that are dropped or
    new hold nothing. *)
Definition decodeNotes (old : option ReleaseNotes) (b : Behind) (v : value)
  : option (option ReleaseNotes * Behind) :=
  match v with
  | Null => Some (None, noBehind)
  | Object ms =>
      option_map (fun nb => (Some (fst nb), snd nb))
        (decodeMembers notesField
           (match old with
            | Some n => (n, b)
            | None => (zeroReleaseNotes, noBehind)
            end) ms)
  | _ => None
  end.

(** A release while it is decoded into, with the backing arrays of its
    notes. *)
Definition releaseField (rb : Release * Behind) (key : string) (v : value)
  : option (Release * Behind) :=
  let (r, b) := rb in
  if key =? "name" then
    option_map (fun s => (mkRelease s (ZipballUrl r) (TarballUrl r)
                            (Release_Commit r) (Release_ReleaseNotes r), b))
               (decodeString (Name r) v)
  else if key =? "zipball_url" then
    option_map (fun s => (mkRelease (Name r) s (TarballUrl r)
                            (Release_Commit r) (Release_ReleaseNotes r), b))
               (decodeString (ZipballUrl r) v)
  else if key =? "tarball_url" then
    option_map (fun s => (mkRelease (Name r) (ZipballUrl r) s
                            (Release_Commit r) (Release_ReleaseNotes r), b))
               (decodeString (TarballUrl r) v)
  else if key =? "commit" then
    option_map (fun c => (mkRelease (Name r) (ZipballUrl r) (TarballUrl r)
                            c (Release_ReleaseNotes r), b))
               (decodeStruct commitField (Release_Commit r) v)
  else if key =? "release_notes" then
    option_map (fun n => (mkRelease (Name r) (ZipballUrl r) (TarballUrl r)
                            (Release_Commit r) (fst n), snd n))
               (decodeNotes (Release_ReleaseNotes r) b v)
  else Some rb.

Definition zeroRelease : Release :=
  mkRelease "" "" "" (mkCommit "" "") None.

(** A document into [releases], which is nil when [main] calls
    [json.Unmarshal]: every element starts as the zero [Release].  Once the
    decoding is over nothing reads a backing array behind the end of its
    slice ([append] writes there or takes a new array), so that the slices
    are returned as their elements. *)
Definition decode (doc : value) : option (list Release) :=
  option_map (fun l => map fst (fst l))
    (decodeSlice (decodeStruct releaseField) (zeroRelease, noBehind) [] [] doc).

(** [json.Unmarshal(data, &releases)] with [releases] nil, as in [main];
    [None] stands for a returned error. *)
Definition Unmarshal (data : string) : option (list Release) :=
  match parse data with
  | Some v => decode v
  | None => None
  end.

End Json.

(** ** The debug dump *)

(** [fmt.Println] on string operands: the operands with a space between
    them, and a newline. *)
Definition Println (operands : list string) : string :=
  String.concat " " operands ++ nl.

Definition tab : string := String (ascii_of_nat 9) "".

(** How a call ends, with what it has written to the standard output. *)
Inductive outcome :=
| Returned (stdout : string)
| Panicked (stdout : string).

(** The lines [dump] prints for one sequence of the notes. *)
Definition dumpEntries (l : list string) : string :=
  String.concat "" (map (fun e => Println [tab ++ tab ++ " *"; e]) l).

(** [(r *Release).dump()]: the eighth [Println] reads through the pointer
    [r.ReleaseNotes], which panics when the pointer is nil. *)
Definition dump (r : Release) : outcome :=
  let tagLines :=
    Println ["Name:"; Name r]
    ++ Println ["ZipballUrl:"; ZipballUrl r]
    ++ Println ["TarballUrl:"; TarballUrl r]
    ++ Println ["Commit:"]
    ++ Println [tab ++ "SHA:"; Sha (Release_Commit r)]
    ++ Println [tab ++ "URL:"; Url (Release_Commit r)]
    ++ Println ["Release Notes:"] in
  match Release_ReleaseNotes r with
  | None => Panicked tagLines
  | Some n =>
      Returned
        (tagLines
         ++ Println [tab ++ "Version:"; Version n]
         ++ Println [tab ++ "Fixes:"] ++ dumpEntries (Fixes n)
         ++ Println [tab ++ "Features:"] ++ dumpEntries (Features n)
         ++ Println [tab ++ "Maintenance:"] ++ dumpEntries (Maintenance n)
         ++ Println [tab ++ "Changes:"] ++ dumpEntries (Changes n)
         ++ Println [])
  end.

(** ** [main] *)

Definition changelogURL : string :=
  "https://raw.githubusercontent.com/facebook/jest/master/CHANGELOG.md".

Definition tagsURL : string :=
  "https://api.github.com/repos/facebook/jest/tags".

(** [main] over what [wget] answers for a URL, [None] for an error: the
    bytes handed to [ioutil.WriteFile], or [None] when a [log.Fatalln] ends
    the run first.  [releases] is nil when [main] starts and stays the nil
    slice exactly when the tag document is [null]; [json.Marshal] never
    fails on this type. *)
Definition main (wget : string -> option string) : option string :=
  match wget tagsURL with
  | None => None
  | Some tags =>
      match Json.parse tags with
      | None => None
      | Some doc =>
          match Json.decode doc with
          | None => None
          | Some rs =>
              match wget changelogURL with
              | None => None
              | Some changelog =>
                  match doc with
                  | Json.Null => Some Json.MarshalNil
                  | _ => Some (Json.Marshal (parseChangelog changelog rs))
                  end
              end
          end
      end
  end.

(** ** Vocabulary of the statements *)

(** The four sequences of a [ReleaseNotes]. *)
Inductive Category := CatFixes | CatFeatures | CatMaintenance | CatChanges.

(** The sequence chosen by the [if fixes ... else if features ... else if
    maintenance ... else] chain. *)
Definition activeCategory (st : State) : Category :=
  if fixes st then CatFixes
  else if features st then CatFeatures
  else if maintenance st then CatMaintenance
  else CatChanges.

Definition entries (cat : Category) (n : ReleaseNotes) : list string :=
  match cat with
  | CatFixes => Fixes n
  | CatFeatures => Features n
  | CatMaintenance => Maintenance n
  | CatChanges => Changes n
  end.

(** What the three assignments of an insert function leave in the notes. *)
Definition appendNote (cat : Category) (release name line : string)
  (n : ReleaseNotes) : ReleaseNotes :=
  match cat with
  | CatFixes =>
      mkReleaseNotes release name (Fixes n ++ [line])%list (Features n) (Maintenance n) (Changes n)
  | CatFeatures =>
      mkReleaseNotes release name (Fixes n) (Features n ++ [line])%list (Maintenance n) (Changes n)
  | CatMaintenance =>
      mkReleaseNotes release name (Fixes n) (Features n) (Maintenance n ++ [line])%list (Changes n)
  | CatChanges =>
      mkReleaseNotes release name (Fixes n) (Features n) (Maintenance n) (Changes n ++ [line])%list
  end.

(** What one iteration of an insert loop does to the release it visits. *)
Definition attach (cat : Category) (release name line : string) (r : Release)
  : Release :=
  if Name r =? name then withNotes r (appendNote cat release name line (notesOrZero r))
  else r.

(** The text starts a heading or a bullet: after the right trim its first
    byte is ['#'] or ['*']. *)
Definition startsBoundary (line : string) : bool :=
  match line with
  | EmptyString => false
  | String c _ => Ascii.eqb c hash || Ascii.eqb c star
  end.

Definition isBoundary (text : string) : bool :=
  startsBoundary (GoStrings.TrimRight text cutset).

(** A ["### "] line that names one of the three known categories. *)
Definition isKnownCategory (line : string) : bool :=
  isCategoryHeading line &&
  (GoStrings.Contains line "Fixes" || GoStrings.Contains line "Features"
   || GoStrings.Contains line "Chore & Maintenance").

(** The notes of a release after the parse, against those before: notes are
    never taken away, and no sequence loses or changes an entry. *)
Definition prefixOf (old new : list string) : Prop :=
  exists added, new = (old ++ added)%list.

Definition notesExtend (old new : option ReleaseNotes) : Prop :=
  match old, new with
  | None, _ => True
  | Some _, None => False
  | Some n, Some n' =>
      prefixOf (Fixes n) (Fixes n') /\ prefixOf (Features n) (Features n') /\
      prefixOf (Maintenance n) (Maintenance n') /\ prefixOf (Changes n) (Changes n')
  end.

Definition sameTag (r r' : Release) : Prop :=
  Name r' = Name r /\ ZipballUrl r' = ZipballUrl r /\
  TarballUrl r' = TarballUrl r /\ Release_Commit r' = Release_Commit r /\
  notesExtend (Release_ReleaseNotes r) (Release_ReleaseNotes r').

(** The words of the pattern, stated on their own: a number is a non-empty
    run of digits, a version three numbers with a dot between them. *)
Fixpoint allDigits (s : string) : bool :=
  match s with
  | EmptyString => true
  | String c s' => Regexp.isDigit c && allDigits s'
  end.

Definition isNumber (s : string) : bool :=
  match s with
  | EmptyString => false
  | String _ _ => allDigits s
  end.

Definition IsVersion (m : string) : Prop :=
  exists n1 n2 n3,
    isNumber n1 = true /\ isNumber n2 = true /\ isNumber n3 = true /\
    m = n1 ++ "." ++ n2 ++ "." ++ n3.

(** [m] is the part of [s] that starts after its first [i] bytes. *)
Definition OccursAt (s : string) (i : nat) (m : string) : Prop :=
  exists pre post, s = pre ++ m ++ post /\ String.length pre = i.

(** [m] is the first match of the pattern in [s]: a version that occurs in
    [s], no version occurring further left, and none that starts at the same
    byte being longer. *)
Definition FirstMatch (s m : string) : Prop :=
  exists i, IsVersion m /\ OccursAt s i m /\
    forall j m', IsVersion m' -> OccursAt s j m' ->
      i < j \/ (i = j /\ String.length m' <= String.length m).

Definition NoMatch (s : string) : Prop :=
  forall j m', IsVersion m' -> ~ OccursAt s j m'.

(** No byte of the text is a newline. *)
Fixpoint oneLine (text : string) : bool :=
  match text with
  | EmptyString => true
  | String c r => negb (Ascii.eqb c Bufio.newline) && oneLine r
  end.

(** The state once the block under "handle buffered comments" has run. *)
Definition flushed (st : State) : State :=
  mkState (release st) (name st) (comment st)
          (fixes st) (features st) (maintenance st) (flushComment st).

(** The state of the parser before the first release heading, over the
    store [rs]. *)
Definition preamble (rs : list Release) (st : State) : Prop :=
  release st = "" /\ name st = "" /\ releases st = rs.



(** A piece as [Utf8.pieces] makes them. *)
Definition wfPiece (p : Utf8.piece) : Prop :=
  match p with
  | Utf8.One c => Utf8.isASCII c = true
  | Utf8.Seq bytes =>
      exists c r, bytes = String c r /\ Utf8.isASCII c = false
                  /\ forall t, Utf8.seqLen (bytes ++ t) = Some (String.length bytes)
  | Utf8.Bad c => Utf8.isASCII c = false
  end.

(** The JSON document that [Json.Marshal] writes for a store, as a
    value: a field that [omitempty] leaves out is no member, and a string is
    the Go string coerced to UTF-8. *)
Definition optional (key : string) (omitted : bool) (v : Json.value)
  : list (string * Json.value) :=
  if omitted then [] else [(key, v)].

Definition stringValue (s : string) : Json.value := Json.Str (Utf8.coerce s).

Definition stringsValue (l : list string) : Json.value :=
  Json.Array (map stringValue l).

Definition commitValue (c : Commit) : Json.value :=
  Json.Object (optional "sha" (Sha c =? "") (stringValue (Sha c))
               ++ optional "url" (Url c =? "") (stringValue (Url c)))%list.

Definition notesValue (n : ReleaseNotes) : Json.value :=
  Json.Object
    (optional "release_name" (ReleaseName n =? "") (stringValue (ReleaseName n))
     ++ optional "version" (Version n =? "") (stringValue (Version n))
     ++ optional "fixes" (Json.noEntries (Fixes n)) (stringsValue (Fixes n))
     ++ optional "features" (Json.noEntries (Features n)) (stringsValue (Features n))
     ++ optional "maintenance" (Json.noEntries (Maintenance n))
          (stringsValue (Maintenance n))
     ++ optional "changes" (Json.noEntries (Changes n)) (stringsValue (Changes n)))%list.

Definition releaseValue (r : Release) : Json.value :=
  Json.Object
    (optional "name" (Name r =? "") (stringValue (Name r))
     ++ optional "zipball_url" (ZipballUrl r =? "") (stringValue (ZipballUrl r))
     ++ optional "tarball_url" (TarballUrl r =? "") (stringValue (TarballUrl r))
     ++ optional "commit" false (commitValue (Release_Commit r))
     ++ match Release_ReleaseNotes r with
        | None => []
        | Some n => optional "release_notes" false (notesValue n)
        end)%list.

(** [text] starts like a value that is no closing bracket, and is read as
    [v] whatever follows it, with fuel for twice its length, wherever [h]
    more arrays and objects may be opened. *)
Definition Reads (h : N) (text : string) (v : Json.value) : Prop :=
  (exists c t, text = String c t /\ Json.isSpace c = false
               /\ Ascii.eqb c "]" = false /\ Ascii.eqb c "}" = false)
  /\ forall f d rest,
       2 * String.length text <= f ->
       (d + h <= Json.maxNestingDepth)%N ->
       Json.parseValue f d (text ++ rest) = Some (v, rest).

(** A key that is written between quotes as it is. *)
Definition PlainKey (key : string) : Prop :=
  forall t, Json.parseString (key ++ String Json.quoteMark t) = Some (key, t).

Definition ReadsMember (h : N) (text : string) (kv : string * Json.value)
  : Prop :=
  exists val,
    text = String Json.quoteMark (fst kv)
           ++ String Json.quoteMark (String ":" val)
    /\ PlainKey (fst kv) /\ Reads h val (snd kv).

(** The store with every string coerced to UTF-8. *)
Definition coerceCommit (c : Commit) : Commit :=
  mkCommit (Utf8.coerce (Sha c)) (Utf8.coerce (Url c)).

Definition coerceNotes (n : ReleaseNotes) : ReleaseNotes :=
  mkReleaseNotes (Utf8.coerce (ReleaseName n)) (Utf8.coerce (Version n))
    (map Utf8.coerce (Fixes n)) (map Utf8.coerce (Features n))
    (map Utf8.coerce (Maintenance n)) (map Utf8.coerce (Changes n)).

Definition coerceRelease (r : Release) : Release :=
  mkRelease (Utf8.coerce (Name r)) (Utf8.coerce (ZipballUrl r))
    (Utf8.coerce (TarballUrl r)) (coerceCommit (Release_Commit r))
    (option_map coerceNotes (Release_ReleaseNotes r)).

(** Every string of the store is valid UTF-8. *)
Definition validStrings (l : list string) : bool :=
  forallb Utf8.ValidString l.

Definition validNotes (n : ReleaseNotes) : bool :=
  Utf8.ValidString (ReleaseName n) && Utf8.ValidString (Version n)
  && validStrings (Fixes n) && validStrings (Features n)
  && validStrings (Maintenance n) && validStrings (Changes n).

Definition validRelease (r : Release) : bool :=
  Utf8.ValidString (Name r) && Utf8.ValidString (ZipballUrl r)
  && Utf8.ValidString (TarballUrl r)
  && Utf8.ValidString (Sha (Release_Commit r))
  && Utf8.ValidString (Url (Release_Commit r))
  && match Release_ReleaseNotes r with
     | Some n => validNotes n
     | None => true
     end.

Definition validStore (rs : list Release) : bool :=
  forallb validRelease rs.

(** The insert function of a category. *)
Definition insertBy (cat : Category)
  : list Release -> string -> string -> string -> list Release :=
  match cat with
  | CatFixes => insertFix
  | CatFeatures => insertFeature
  | CatMaintenance => insertMaintenance
  | CatChanges => insertChange
  end.

Definition sameCategory (c1 c2 : Category) : bool :=
  match c1, c2 with
  | CatFixes, CatFixes | CatFeatures, CatFeatures
  | CatMaintenance, CatMaintenance | CatChanges, CatChanges => true
  | _, _ => false
  end.

(** The version tag is the one of the release heading: none of the two is
    set yet, or the tag is ["v"] and the first version of the heading. *)
Definition tagged (st : State) : Prop :=
  (release st = "" /\ name st = "")
  \/ name st = "v" ++ Regexp.FindString (release st).

(** At most one category flag is up, and none under a heading without a
    version. *)
Definition flagsExclusive (st : State) : Prop :=
  match fixes st, features st, maintenance st with
  | false, false, false => True
  | true, false, false | false, true, false | false, false, true =>
      Regexp.MatchString (release st) = true
  | _, _, _ => False
  end.

(** The version tags a list of scanner texts can look up: the empty tag the
    parser starts with, and the tag of every release heading. *)
Definition headingTag (text : string) : string :=
  "v" ++ Regexp.FindString
           (GoStrings.sliceFrom 3 (GoStrings.TrimRight text cutset)).

Definition tagsIn (texts : list string) : list string :=
  "" :: map headingTag
          (filter (fun t => isReleaseHeading (GoStrings.TrimRight t cutset)) texts).

(** All bytes of the text are in the cutset of the right trim. *)
Fixpoint allCutset (w : string) : bool :=
  match w with
  | EmptyString => true
  | String c r => GoStrings.byteIn c cutset && allCutset r
  end.

(** The comment buffer after texts none of which starts a heading or a
    bullet: blank ones are skipped, the others joined on with a newline. *)
Definition joinLine (c text : string) : string :=
  match GoStrings.TrimRight text cutset with
  | EmptyString => c
  | line => c ++ nl ++ GoStrings.TrimSpace line
  end.

(** A bullet line for the text [t], and the texts that make one: not empty,
    and nothing for the right trim to remove. *)
Definition bulletLine (t : string) : string := "* " ++ t.

Definition clean (t : string) : Prop :=
  t <> "" /\ GoStrings.TrimRight t cutset = t.

(** The notes with a run of entries added to one sequence. *)
Definition appendNotes (cat : Category) (heading version : string)
  (ls : list string) (n : ReleaseNotes) : ReleaseNotes :=
  match cat with
  | CatFixes =>
      mkReleaseNotes heading version (Fixes n ++ ls)%list (Features n)
        (Maintenance n) (Changes n)
  | CatFeatures =>
      mkReleaseNotes heading version (Fixes n) (Features n ++ ls)%list
        (Maintenance n) (Changes n)
  | CatMaintenance =>
      mkReleaseNotes heading version (Fixes n) (Features n)
        (Maintenance n ++ ls)%list (Changes n)
  | CatChanges =>
      mkReleaseNotes heading version (Fixes n) (Features n) (Maintenance n)
        (Changes n ++ ls)%list
  end.

(** A line the scanner gives back as it is: no newline in it, no carriage
    return at its end, and short enough for the buffer. *)
Definition scannable (l : string) : Prop :=
  oneLine l = true /\ Bufio.fits l = true /\ Bufio.dropCR l = l.

(** What the parser may have done to the notes of a release: nothing, or
    notes whose Version is the name of the release, that name being the tag
    of the heading kept as ReleaseName. *)
Definition writtenBy (r r' : Release) : Prop :=
  Release_ReleaseNotes r' = Release_ReleaseNotes r
  \/ exists n', Release_ReleaseNotes r' = Some n'
       /\ Version n' = Name r
       /\ ((Name r = "" /\ ReleaseName n' = "")
           \/ Name r = "v" ++ Regexp.FindString (ReleaseName n')).

(** The same, for the entries: nothing, or notes whose sequences are the
    old ones with entries added, none of them empty, and at least one of
    them in all. *)
Definition grownBy (r r' : Release) : Prop :=
  Release_ReleaseNotes r' = Release_ReleaseNotes r
  \/ exists n', Release_ReleaseNotes r' = Some n'
       /\ (forall cat, exists added,
             entries cat n' = (entries cat (notesOrZero r) ++ added)%list
             /\ Forall (fun e => e <> "") added)
       /\ exists cat, List.length (entries cat (notesOrZero r))
                      < List.length (entries cat n').

(** No byte of the text is a digit; the text starts with a digit. *)
Fixpoint noDigits (s : string) : bool :=
  match s with
  | EmptyString => true
  | String c r => negb (Regexp.isDigit c) && noDigits r
  end.

Definition digitFirst (s : string) : bool :=
  match s with
  | EmptyString => false
  | String c _ => Regexp.isDigit c
  end.

(** The state with another store in the place of [releases]. *)
Definition withStore (st : State) (rs : list Release) : State :=
  mkState (release st) (name st) (comment st)
          (fixes st) (features st) (maintenance st) rs.

(** What one iteration of the scan loop does to a store, in a state. *)
Definition stepStore (st : State) (text : string) (rs : list Release)
  : list Release :=
  if isBoundary text then
    if comment st =? "" then rs
    else map (attach (activeCategory st) (release st) (name st) (comment st)) rs
  else rs.

(** A line of [n] bytes ['a']. *)
Fixpoint filler (n : nat) : string :=
  match n with
  | O => EmptyString
  | S n' => String "a" (filler n')
  end.

(** ** Lemmas on the insert functions *)

Section Inserts.

Variables release name line : string.

Lemma insertFix_map rs :
  insertFix rs release name line = map (attach CatFixes release name line) rs.
Proof. induction rs as [|r rs IH]; simpl; [reflexivity|]. now rewrite IH. Qed.

Lemma insertFeature_map rs :
  insertFeature rs release name line = map (attach CatFeatures release name line) rs.
Proof. induction rs as [|r rs IH]; simpl; [reflexivity|]. now rewrite IH. Qed.

Lemma insertMaintenance_map rs :
  insertMaintenance rs release name line = map (attach CatMaintenance release name line) rs.
Proof. induction rs as [|r rs IH]; simpl; [reflexivity|]. now rewrite IH. Qed.

Lemma insertChange_map rs :
  insertChange rs release name line = map (attach CatChanges release name line) rs.
Proof. induction rs as [|r rs IH]; simpl; [reflexivity|]. now rewrite IH. Qed.

Lemma attach_other cat r : Name r <> name -> attach cat release name line r = r.
Proof.
  intros H. unfold attach. destruct (String.eqb_spec (Name r) name); [contradiction|reflexivity].
Qed.

Lemma attach_same cat r :
  Name r = name ->
  attach cat release name line r
  = withNotes r (appendNote cat release name line (notesOrZero r)).
Proof. intros H. unfold attach. now rewrite H, String.eqb_refl. Qed.

Lemma map_attach_absent cat rs :
  (forall r, In r rs -> Name r <> name) ->
  map (attach cat release name line) rs = rs.
Proof.
  induction rs as [|r rs IH]; intros H; simpl; [reflexivity|].
  rewrite attach_other by (apply H; now left).
  f_equal. apply IH. intros r' Hr'. apply H. now right.
Qed.

Lemma prefixOf_refl l : prefixOf l l.
Proof. exists []. now rewrite app_nil_r. Qed.

Lemma prefixOf_snoc l x : prefixOf l (l ++ [x])%list.
Proof. now exists [x]. Qed.

Lemma prefixOf_trans l1 l2 l3 : prefixOf l1 l2 -> prefixOf l2 l3 -> prefixOf l1 l3.
Proof. intros [a ->] [c ->]. exists (a ++ c)%list. now rewrite app_assoc. Qed.

Lemma notesExtend_refl o : notesExtend o o.
Proof. destruct o; simpl; auto using prefixOf_refl. Qed.

Lemma notesExtend_trans o1 o2 o3 :
  notesExtend o1 o2 -> notesExtend o2 o3 -> notesExtend o1 o3.
Proof.
  destruct o1 as [n1|], o2 as [n2|], o3 as [n3|]; simpl; try tauto.
  intros (A & B & C & D) (A' & B' & C' & D'). eauto 8 using prefixOf_trans.
Qed.

Lemma sameTag_refl r : sameTag r r.
Proof. unfold sameTag. auto using notesExtend_refl. Qed.

Lemma sameTag_trans r1 r2 r3 : sameTag r1 r2 -> sameTag r2 r3 -> sameTag r1 r3.
Proof.
  unfold sameTag. intros (A & B & C & D & E) (A' & B' & C' & D' & E').
  repeat split; try congruence. eapply notesExtend_trans; eassumption.
Qed.

Lemma attach_sameTag cat r : sameTag r (attach cat release name line r).
Proof.
  unfold attach. destruct (Name r =? name); [|apply sameTag_refl].
  unfold sameTag, withNotes, notesOrZero; simpl. repeat split.
  destruct (Release_ReleaseNotes r) as [n|]; simpl; [|exact I].
  destruct cat; simpl; auto using prefixOf_refl, prefixOf_snoc.
Qed.

Lemma map_attach_sameTag cat rs :
  Forall2 sameTag rs (map (attach cat release name line) rs).
Proof.
  induction rs; simpl; constructor; auto using attach_sameTag.
Qed.

End Inserts.

Lemma Forall2_sameTag_refl rs : Forall2 sameTag rs rs.
Proof. induction rs; constructor; auto using sameTag_refl. Qed.

Lemma Forall2_sameTag_trans rs1 : forall rs2 rs3,
  Forall2 sameTag rs1 rs2 -> Forall2 sameTag rs2 rs3 -> Forall2 sameTag rs1 rs3.
Proof.
  induction rs1; intros rs2 rs3 H12 H23; inversion H12; subst;
    inversion H23; subst; constructor; eauto using sameTag_trans.
Qed.

(** ** Lemmas on the loop body *)

Lemma flushComment_map st :
  flushComment st =
  if comment st =? "" then releases st
  else map (attach (activeCategory st) (release st) (name st) (comment st))
           (releases st).
Proof.
  unfold flushComment, activeCategory.
  destruct (comment st =? ""); [reflexivity|].
  destruct (fixes st); [apply insertFix_map|].
  destruct (features st); [apply insertFeature_map|].
  destruct (maintenance st); [apply insertMaintenance_map|apply insertChange_map].
Qed.

Lemma releases_releaseHeading st line :
  releases (releaseHeading st line) = releases st.
Proof. unfold releaseHeading. now destruct (isReleaseHeading line). Qed.

Lemma releases_categoryHeading st line :
  releases (categoryHeading st line) = releases st.
Proof.
  unfold categoryHeading. destruct (isCategoryHeading line); [|reflexivity].
  repeat match goal with |- context [if ?c then _ else _] => destruct c end;
    reflexivity.
Qed.

Lemma releases_bullet st line : releases (bullet st line) = releases st.
Proof. unfold bullet. now destruct (isBullet line). Qed.

Lemma startsBoundary_false line :
  startsBoundary line = false ->
  Nat.eqb (String.length line) 0 = true \/ isContinuation line = true.
Proof.
  destruct line as [|c l]; simpl; [now left|]. intros H. right.
  apply orb_false_elim in H. destruct H as [-> ->]. reflexivity.
Qed.

Lemma startsBoundary_true line :
  startsBoundary line = true ->
  Nat.eqb (String.length line) 0 = false /\ isContinuation line = false.
Proof.
  destruct line as [|c l]; simpl; [discriminate|]. intros H. split; [reflexivity|].
  apply orb_true_elim in H. destruct H as [-> | ->]; simpl; [reflexivity|].
  now rewrite andb_false_r.
Qed.

(** The store changes on a heading or bullet line only, and there by the
    flush of the buffered comment and nothing else. *)
Lemma releases_processLine st line :
  releases (processLine st line)
  = if startsBoundary line then flushComment st else releases st.
Proof.
  unfold processLine. destruct (startsBoundary line) eqn:B.
  - apply startsBoundary_true in B. destruct B as [-> ->].
    match goal with |- context [if ?c then _ else _] => destruct c end.
    + now rewrite releases_releaseHeading.
    + now rewrite releases_bullet, releases_categoryHeading, releases_releaseHeading.
  - apply startsBoundary_false in B. destruct B as [-> | C]; [reflexivity|].
    rewrite C. now destruct (Nat.eqb (String.length line) 0).
Qed.

Lemma releases_loopBody st text :
  releases (loopBody st text)
  = if isBoundary text then flushComment st else releases st.
Proof. apply releases_processLine. Qed.

Lemma fold_left_snoc {A B} (f : A -> B -> A) l x a :
  fold_left f (l ++ [x])%list a = f (fold_left f l a) x.
Proof. now rewrite fold_left_app. Qed.

Lemma flushComment_sameTag st : Forall2 sameTag (releases st) (flushComment st).
Proof.
  rewrite flushComment_map. destruct (comment st =? "").
  - apply Forall2_sameTag_refl.
  - apply map_attach_sameTag.
Qed.

Lemma loopBody_sameTag st text :
  Forall2 sameTag (releases st) (releases (loopBody st text)).
Proof.
  rewrite releases_loopBody. destruct (isBoundary text).
  - apply flushComment_sameTag.
  - apply Forall2_sameTag_refl.
Qed.

Lemma fold_loopBody_sameTag texts : forall st,
  Forall2 sameTag (releases st) (releases (fold_left loopBody texts st)).
Proof.
  induction texts as [|t ts IH]; intros st; simpl.
  - apply Forall2_sameTag_refl.
  - eapply Forall2_sameTag_trans; [apply loopBody_sameTag|apply IH].
Qed.

(** A flush with a buffered comment changes the store as soon as one release
    carries the current version tag. *)
Lemma map_attach_changes cat rel nm line rs :
  (exists r, In r rs /\ Name r = nm) ->
  map (attach cat rel nm line) rs <> rs.
Proof.
  intros (r & Hin & Hnm). induction rs as [|r0 rs IH]; [contradiction|].
  simpl. intros E. injection E as E0 E1. destruct Hin as [-> | Hin].
  - rewrite attach_same in E0 by assumption.
    apply (f_equal Release_ReleaseNotes) in E0. simpl in E0.
    apply (f_equal (fun o => match o with
                             | Some n => List.length (entries cat n)
                             | None => 0 end)) in E0.
    unfold notesOrZero in E0.
    destruct (Release_ReleaseNotes r) as [n|]; [|destruct cat; discriminate].
    destruct cat; simpl in E0; rewrite length_app in E0; simpl in E0; lia.
  - now apply IH.
Qed.

Lemma nth_error_map_attach cat rel nm line rs i r :
  nth_error rs i = Some r ->
  Name r = nm ->
  nth_error (map (attach cat rel nm line) rs) i
  = Some (withNotes r (appendNote cat rel nm line (notesOrZero r))).
Proof.
  intros H E. rewrite nth_error_map, H. simpl. now rewrite attach_same.
Qed.

(** ** Prefixes and the right trim *)

Lemma HasPrefix_split s p :
  GoStrings.HasPrefix s p = true -> s = p ++ GoStrings.sliceFrom (String.length p) s.
Proof.
  revert s. induction p as [|a p IH]; intros s H; [reflexivity|].
  destruct s as [|c s]; [discriminate|]. simpl in H.
  apply andb_true_iff in H. destruct H as [A H].
  apply Ascii.eqb_eq in A. subst c. simpl. f_equal. now apply IH.
Qed.

Lemma HasPrefix_append s t p :
  GoStrings.HasPrefix s p = true -> GoStrings.HasPrefix (s ++ t) p = true.
Proof.
  revert s. induction p as [|a p IH]; intros s H; [reflexivity|].
  destruct s as [|c s]; [discriminate|]. simpl in *.
  apply andb_true_iff in H. destruct H as [-> H]. simpl. now apply IH.
Qed.

Lemma TrimRight_prefix text cs :
  exists suffix, text = GoStrings.TrimRight text cs ++ suffix.
Proof.
  induction text as [|c text [suffix IH]]; [now exists ""|]. simpl.
  destruct (GoStrings.TrimRight text cs) as [|c' t] eqn:E.
  - destruct (GoStrings.byteIn c cs).
    + now exists (String c text).
    + exists suffix. simpl in *. now f_equal.
  - exists suffix. simpl in *. now f_equal.
Qed.

Lemma HasPrefix_TrimRight text cs p :
  GoStrings.HasPrefix (GoStrings.TrimRight text cs) p = true ->
  GoStrings.HasPrefix text p = true.
Proof.
  intros H. destruct (TrimRight_prefix text cs) as [suffix E].
  rewrite E. now apply HasPrefix_append.
Qed.

(** The length test and the slice comparison of the source amount to a
    prefix test. *)
Lemma slice_test_HasPrefix p : forall s,
  Nat.leb (String.length p) (String.length s)
  && (GoStrings.sliceTo (String.length p) s =? p)
  = GoStrings.HasPrefix s p.
Proof.
  induction p as [|a p IH]; intros s; [reflexivity|].
  destruct s as [|c s]; [reflexivity|].
  simpl. rewrite <- IH, (Ascii.eqb_sym a c).
  destruct (Ascii.eqb c a); simpl; [reflexivity|apply andb_false_r].
Qed.

Lemma isReleaseHeading_HasPrefix line :
  isReleaseHeading line = GoStrings.HasPrefix line "## ".
Proof. apply (slice_test_HasPrefix "## "). Qed.

Lemma isCategoryHeading_HasPrefix line :
  isCategoryHeading line = GoStrings.HasPrefix line "### ".
Proof. apply (slice_test_HasPrefix "### "). Qed.

Lemma isBullet_HasPrefix line :
  isBullet line = GoStrings.HasPrefix line "* ".
Proof. apply (slice_test_HasPrefix "* "). Qed.

(** ** Before the first release heading *)

Section NoReleaseHeading.

Variable rs : list Release.
Hypothesis named : forall r, In r rs -> Name r <> "".

Lemma preamble_flush st : preamble rs st -> flushComment st = rs.
Proof.
  intros (_ & Hn & Hr). rewrite flushComment_map, Hr, Hn.
  destruct (comment st =? ""); [reflexivity|]. now apply map_attach_absent.
Qed.

Lemma preamble_processLine st line :
  GoStrings.HasPrefix line "## " = false ->
  preamble rs st -> preamble rs (processLine st line).
Proof.
  intros Hp Hst. pose proof (preamble_flush st Hst) as Hf.
  destruct Hst as (Hrel & Hn & Hr). unfold processLine.
  destruct (Nat.eqb (String.length line) 0); [now repeat split|].
  destruct (isContinuation line); [now repeat split|].
  unfold releaseHeading. rewrite isReleaseHeading_HasPrefix, Hp. simpl.
  rewrite Hrel. simpl. now repeat split.
Qed.

Lemma preamble_fold texts : forall st,
  (forall l, In l texts -> GoStrings.HasPrefix l "## " = false) ->
  preamble rs st -> preamble rs (fold_left loopBody texts st).
Proof.
  induction texts as [|t ts IH]; intros st Hts Hst; [exact Hst|].
  simpl. apply IH; [intros l Hl; apply Hts; now right|].
  apply preamble_processLine; [|exact Hst].
  destruct (GoStrings.HasPrefix (GoStrings.TrimRight t cutset) "## ") eqn:E;
    [|reflexivity].
  apply HasPrefix_TrimRight in E. rewrite Hts in E by now left. discriminate.
Qed.

End NoReleaseHeading.

(** ** The pattern finds the first version *)

Module RegexpFacts.
Import Regexp.

Lemma append_nil_r (s : string) : s ++ "" = s.
Proof. induction s; simpl; congruence. Qed.

Lemma append_assoc (s t u : string) : (s ++ t) ++ u = s ++ (t ++ u).
Proof. induction s; simpl; congruence. Qed.

Lemma length_append (s t : string) :
  String.length (s ++ t) = String.length s + String.length t.
Proof. induction s; simpl; congruence. Qed.

Lemma isDigit_dot : isDigit dot = false.
Proof. reflexivity. Qed.

Lemma spanDigits_sound s :
  s = fst (spanDigits s) ++ snd (spanDigits s)
  /\ allDigits (fst (spanDigits s)) = true.
Proof.
  induction s as [|c s [IH1 IH2]]; simpl; [now split|].
  destruct (isDigit c) eqn:D; [|now split].
  destruct (spanDigits s) as [d r]; simpl in *. rewrite D.
  split; [now f_equal|exact IH2].
Qed.

Lemma spanDigits_app d r :
  allDigits d = true ->
  spanDigits (d ++ r) = (d ++ fst (spanDigits r), snd (spanDigits r)).
Proof.
  induction d as [|c d IH]; simpl; intros H; [now destruct (spanDigits r)|].
  apply andb_true_iff in H. destruct H as [-> H]. now rewrite IH.
Qed.

Lemma isNumber_inv n :
  isNumber n = true -> allDigits n = true /\ exists c n', n = String c n'.
Proof. destruct n as [|c n']; [discriminate|]. simpl. eauto. Qed.

Lemma digitsDot_complete n r :
  isNumber n = true -> digitsDot (n ++ String dot r) = Some (n, r).
Proof.
  intros H. apply isNumber_inv in H. destruct H as (H & c & n' & ->).
  unfold digitsDot. rewrite spanDigits_app by exact H.
  change (spanDigits (String dot r)) with ("", String dot r).
  cbn [fst snd]. rewrite append_nil_r. reflexivity.
Qed.

Lemma digitsDot_sound s n r :
  digitsDot s = Some (n, r) -> isNumber n = true /\ s = n ++ String dot r.
Proof.
  unfold digitsDot. destruct (spanDigits_sound s) as [E D].
  destruct (spanDigits s) as [d t]; simpl in *.
  destruct d as [|c d]; [discriminate|].
  destruct t as [|c' t]; [discriminate|].
  destruct (Ascii.eqb_spec c' dot); [|discriminate].
  intros [= <- <-]. subst c'. now split.
Qed.

Lemma matchHere_sound s m :
  matchHere s = Some m -> IsVersion m /\ exists post, s = m ++ post.
Proof.
  unfold matchHere.
  destruct (digitsDot s) as [[n1 r1]|] eqn:E1; [|discriminate].
  destruct (digitsDot r1) as [[n2 r2]|] eqn:E2; [|discriminate].
  apply digitsDot_sound in E1, E2. destruct E1 as [N1 ->], E2 as [N2 ->].
  destruct (spanDigits_sound r2) as [E3 N3].
  destruct (spanDigits r2) as [n3 r3]; simpl in *.
  destruct n3 as [|c n3]; [discriminate|]. intros [= <-]. split.
  - now exists n1, n2, (String c n3).
  - exists r3. rewrite E3. simpl.
    rewrite append_assoc. simpl. now rewrite append_assoc.
Qed.

Lemma matchHere_complete m' post :
  IsVersion m' ->
  exists m, matchHere (m' ++ post) = Some m
            /\ String.length m' <= String.length m.
Proof.
  intros (n1 & n2 & n3 & N1 & N2 & N3 & ->).
  unfold matchHere. simpl.
  rewrite append_assoc. simpl. rewrite digitsDot_complete by exact N1.
  rewrite append_assoc. simpl. rewrite digitsDot_complete by exact N2.
  apply isNumber_inv in N3. destruct N3 as (D3 & c & n3' & ->).
  rewrite spanDigits_app by exact D3. simpl.
  eexists. split; [reflexivity|].
  rewrite !length_append. simpl. rewrite !length_append. simpl.
  rewrite !length_append. simpl. lia.
Qed.

Lemma OccursAt_0 s m : OccursAt s 0 m -> exists post, s = m ++ post.
Proof.
  intros (pre & post & -> & H). destruct pre; [|discriminate]. now exists post.
Qed.

Lemma OccursAt_S c s j m : OccursAt (String c s) (S j) m -> OccursAt s j m.
Proof.
  intros (pre & post & E & H). destruct pre as [|c' pre]; [discriminate|].
  simpl in *. exists pre, post. split; congruence.
Qed.

Lemma OccursAt_cons c s i m : OccursAt s i m -> OccursAt (String c s) (S i) m.
Proof.
  intros (pre & post & -> & H). exists (String c pre), post. simpl. now rewrite H.
Qed.

Lemma matchHere_none s j m' :
  matchHere s = None -> IsVersion m' -> OccursAt s j m' ->
  exists c s' j', s = String c s' /\ j = S j' /\ OccursAt s' j' m'.
Proof.
  intros E V O. destruct j as [|j'].
  - apply OccursAt_0 in O. destruct O as [post ->].
    destruct (matchHere_complete m' post V) as (m & Hm & _). congruence.
  - destruct s as [|c s'].
    + destruct O as (pre & post & Es & H). destruct pre; discriminate.
    + exists c, s', j'. repeat split. eapply OccursAt_S, O.
Qed.

(** [Find] returns the first match of the pattern, and [None] when the
    pattern matches nowhere. *)
Lemma Find_spec s :
  match Find s with
  | Some m => FirstMatch s m
  | None => NoMatch s
  end.
Proof.
  induction s as [|c s IH].
  - simpl. intros j m' V O.
    destruct (matchHere_none "" j m' eq_refl V O) as (c & s' & _ & E & _).
    discriminate.
  - cbn [Find]. destruct (matchHere (String c s)) as [m|] eqn:E.
    + destruct (matchHere_sound _ _ E) as [V [post Es]].
      exists 0. split; [exact V|]. split; [now exists "", post|].
      intros j m' V' O. destruct j as [|j]; [right|left; lia].
      split; [reflexivity|]. apply OccursAt_0 in O. destruct O as [post' Es'].
      destruct (matchHere_complete m' post' V') as (m2 & Hm2 & Hle).
      rewrite <- Es', E in Hm2. now injection Hm2 as <-.
    + destruct (Find s) as [m|].
      * destruct IH as (i & V & O & Hmin). exists (S i).
        split; [exact V|]. split; [now apply OccursAt_cons|].
        intros j m' V' O'.
        destruct (matchHere_none _ j m' E V' O') as (c' & s' & j' & Es & -> & O'').
        injection Es as <- <-.
        destruct (Hmin j' m' V' O'') as [L | [-> L]]; [left; lia|now right].
      * intros j m' V' O'.
        destruct (matchHere_none _ j m' E V' O') as (c' & s' & j' & Es & -> & O'').
        injection Es as <- <-. exact (IH j' m' V' O'').
Qed.

End RegexpFacts.

(** ** The loop body, line by line *)

Lemma processLine_boundary st line :
  startsBoundary line = true ->
  processLine st line
  = let st2 := releaseHeading (flushed st) line in
    if negb (Regexp.MatchString (release st2)) then st2
    else bullet (categoryHeading st2 line) line.
Proof.
  intros B. apply startsBoundary_true in B. destruct B as [E C].
  unfold processLine. now rewrite E, C.
Qed.

Lemma HasPrefix_boundary line p c :
  GoStrings.HasPrefix line (String c p) = true ->
  startsBoundary (String c "") = true ->
  startsBoundary line = true.
Proof.
  intros H B. apply HasPrefix_split in H. rewrite H. exact B.
Qed.

(** A release heading: the buffered comment is dispatched, then the six
    assignments run; the line is neither a category heading nor a bullet. *)
Lemma processLine_release st line :
  GoStrings.HasPrefix line "## " = true ->
  processLine st line
  = mkState (GoStrings.sliceFrom 3 line)
            ("v" ++ Regexp.FindString (GoStrings.sliceFrom 3 line))
            "" false false false (flushComment st).
Proof.
  intros H. rewrite processLine_boundary
    by (eapply HasPrefix_boundary; [exact H|reflexivity]).
  unfold releaseHeading. rewrite isReleaseHeading_HasPrefix, H.
  cbv zeta. destruct (negb _); [reflexivity|].
  unfold categoryHeading, bullet.
  rewrite isCategoryHeading_HasPrefix, isBullet_HasPrefix.
  apply HasPrefix_split in H. rewrite H. reflexivity.
Qed.

(** A heading or bullet line that is no release heading, met while the
    current heading has no version: the flush runs, then [continue]. *)
Lemma processLine_gated st line :
  startsBoundary line = true ->
  GoStrings.HasPrefix line "## " = false ->
  Regexp.MatchString (release st) = false ->
  processLine st line = flushed st.
Proof.
  intros B H G. rewrite processLine_boundary by exact B.
  unfold releaseHeading. rewrite isReleaseHeading_HasPrefix, H.
  cbv zeta. simpl release. now rewrite G.
Qed.

(** The same line under a heading that has a version. *)
Lemma processLine_open st line :
  startsBoundary line = true ->
  GoStrings.HasPrefix line "## " = false ->
  Regexp.MatchString (release st) = true ->
  processLine st line = bullet (categoryHeading (flushed st) line) line.
Proof.
  intros B H G. rewrite processLine_boundary by exact B.
  unfold releaseHeading. rewrite isReleaseHeading_HasPrefix, H.
  cbv zeta. simpl release. now rewrite G.
Qed.

Lemma processLine_category st line :
  GoStrings.HasPrefix line "### " = true ->
  Regexp.MatchString (release st) = true ->
  processLine st line = categoryHeading (flushed st) line.
Proof.
  intros H G. rewrite processLine_open; try assumption.
  - unfold bullet. rewrite isBullet_HasPrefix.
    apply HasPrefix_split in H. rewrite H at 1. reflexivity.
  - eapply HasPrefix_boundary; [exact H|reflexivity].
  - apply HasPrefix_split in H. rewrite H. reflexivity.
Qed.

Lemma processLine_bullet st line :
  GoStrings.HasPrefix line "* " = true ->
  Regexp.MatchString (release st) = true ->
  processLine st line
  = mkState (release st) (name st) (GoStrings.sliceFrom 2 line)
            (fixes st) (features st) (maintenance st) (flushComment st).
Proof.
  intros H G. rewrite processLine_open; try assumption.
  - unfold categoryHeading. rewrite isCategoryHeading_HasPrefix.
    replace (GoStrings.HasPrefix line "### ") with false
      by (apply HasPrefix_split in H; rewrite H; reflexivity).
    unfold bullet. now rewrite isBullet_HasPrefix, H.
  - eapply HasPrefix_boundary; [exact H|reflexivity].
  - apply HasPrefix_split in H. rewrite H. reflexivity.
Qed.

Lemma processLine_continuation st line :
  isContinuation line = true ->
  processLine st line
  = mkState (release st) (name st)
            (comment st ++ String Bufio.newline (GoStrings.TrimSpace line))
            (fixes st) (features st) (maintenance st) (releases st).
Proof.
  intros C. unfold processLine. rewrite C.
  destruct line; [discriminate|reflexivity].
Qed.

Lemma processLine_blank st : processLine st "" = st.
Proof. reflexivity. Qed.

Lemma state_eta st :
  mkState (release st) (name st) (comment st)
          (fixes st) (features st) (maintenance st) (releases st) = st.
Proof. now destruct st. Qed.

Lemma isKnownCategory_false st line :
  isKnownCategory line = false -> categoryHeading st line = st.
Proof.
  unfold isKnownCategory, categoryHeading. intros H.
  destruct (isCategoryHeading line); [|reflexivity]. simpl in H.
  apply orb_false_elim in H. destruct H as [H ->].
  apply orb_false_elim in H. destruct H as [-> ->]. reflexivity.
Qed.

Lemma isKnownCategory_true st line :
  isKnownCategory line = true -> comment (categoryHeading st line) = "".
Proof.
  unfold isKnownCategory, categoryHeading. intros H.
  apply andb_true_iff in H. destruct H as [-> H].
  destruct (GoStrings.Contains line "Fixes"); [reflexivity|].
  destruct (GoStrings.Contains line "Features"); [reflexivity|].
  simpl in H. now rewrite H.
Qed.

(** ** Strings as sequences of UTF-8 pieces *)

Module Utf8Facts.
Import Utf8 RegexpFacts.

Lemma concat_cons x xs :
  String.concat "" (x :: xs) = x ++ String.concat "" xs.
Proof. destruct xs; simpl; [now rewrite append_nil_r|reflexivity]. Qed.

Lemma sliceTo_length s t :
  GoStrings.sliceTo (String.length s) (s ++ t) = s.
Proof. induction s; simpl; congruence. Qed.

Lemma sliceFrom_length s t :
  GoStrings.sliceFrom (String.length s) (s ++ t) = t.
Proof. induction s; simpl; congruence. Qed.

Lemma slice_split n s :
  s = GoStrings.sliceTo n s ++ GoStrings.sliceFrom n s.
Proof.
  revert s. induction n as [|n IH]; intros [|c s]; simpl; try reflexivity.
  now rewrite <- IH.
Qed.

Lemma sliceFrom_le n s :
  String.length (GoStrings.sliceFrom n s) <= String.length s.
Proof.
  revert s. induction n as [|n IH]; intros [|c s]; simpl; auto.
Qed.

(** A well-formed sequence is decided by its own bytes. *)
Lemma seqLen_slice s n :
  seqLen s = Some n ->
  String.length (GoStrings.sliceTo n s) = n
  /\ forall t, seqLen (GoStrings.sliceTo n s ++ t) = Some n.
Proof.
  unfold seqLen.
  destruct s as [|c0 [|c1 r1]]; try discriminate.
  destruct (lead c0) as [[[k lo] hi]|] eqn:L; [|discriminate].
  destruct (between lo hi c1) eqn:B1; [|discriminate]. cbn [negb].
  destruct (Nat.eqb k 2) eqn:K2.
  { intros [= <-]. split; [reflexivity|]. intros t. simpl. now rewrite L, B1, K2. }
  destruct r1 as [|c2 r2]; [discriminate|].
  destruct (isCont c2) eqn:B2; [|discriminate]. cbn [negb].
  destruct (Nat.eqb k 3) eqn:K3.
  { intros [= <-]. split; [reflexivity|]. intros t. simpl.
    now rewrite L, B1, K2, B2, K3. }
  destruct r2 as [|c3 r3]; [discriminate|].
  destruct (isCont c3) eqn:B3; [|discriminate].
  intros [= <-]. split; [reflexivity|]. intros t. simpl.
  now rewrite L, B1, K2, B2, K3, B3.
Qed.

Lemma seqLen_min s n : seqLen s = Some n -> 2 <= n.
Proof.
  unfold seqLen.
  destruct s as [|c0 [|c1 r1]]; try discriminate.
  destruct (lead c0) as [[[k lo] hi]|]; [|discriminate].
  destruct (negb (between lo hi c1)); [discriminate|].
  destruct (Nat.eqb k 2); [intros [= <-]; lia|].
  destruct r1 as [|c2 r2]; [discriminate|].
  destruct (negb (isCont c2)); [discriminate|].
  destruct (Nat.eqb k 3); [intros [= <-]; lia|].
  destruct r2 as [|c3 r3]; [discriminate|].
  destruct (isCont c3); [intros [= <-]; lia|discriminate].
Qed.

Lemma pieces_wf n : forall s, Forall wfPiece (pieces n s).
Proof.
  induction n as [|n IH]; intros s; [constructor|].
  destruct s as [|c r]; [constructor|]. cbn [pieces].
  destruct (isASCII c) eqn:A; [constructor; [exact A|apply IH]|].
  destruct (seqLen (String c r)) as [k|] eqn:E.
  - constructor; [|apply IH].
    destruct (seqLen_slice _ _ E) as [Hl Ht]. apply seqLen_min in E.
    destruct k as [|k]; [lia|].
    cbn [GoStrings.sliceTo] in *. exists c, (GoStrings.sliceTo k r).
    split; [reflexivity|]. split; [exact A|]. intros t. rewrite Hl. apply Ht.
  - constructor; [exact A|apply IH].
Qed.

(** A string without a bad byte is the concatenation of its pieces. *)
Lemma pieces_valid n : forall s,
  String.length s <= n ->
  existsb isBad (pieces n s) = false ->
  String.concat "" (map pieceBytes (pieces n s)) = s.
Proof.
  induction n as [|n IH]; intros s Hn Hv.
  - destruct s; [reflexivity|simpl in Hn; lia].
  - destruct s as [|c r]; [reflexivity|]. cbn [pieces] in *.
    destruct (isASCII c).
    + cbn [map]. rewrite concat_cons. cbn [existsb isBad orb] in Hv.
      cbn [pieceBytes]. simpl in Hn |- *. f_equal. apply IH; [lia|exact Hv].
    + destruct (seqLen (String c r)) as [k|] eqn:E; [|discriminate].
      cbn [map]. rewrite concat_cons. cbn [pieceBytes].
      cbn [existsb isBad orb] in Hv. apply seqLen_min in E.
      rewrite IH; [symmetry; apply slice_split| |exact Hv].
      destruct k as [|k]; [lia|]. cbn [GoStrings.sliceFrom].
      pose proof (sliceFrom_le k r). simpl in Hn. lia.
Qed.

Lemma coerce_valid s : ValidString s = true -> coerce s = s.
Proof.
  unfold ValidString, coerce. intros H. apply negb_true_iff in H.
  now apply pieces_valid.
Qed.

End Utf8Facts.

(** ** String literals are read back *)

Module JsonFacts.
Import Utf8 Json RegexpFacts Utf8Facts.

Lemma parseChars_escapeASCII c f t :
  isASCII c = true ->
  parseChars (S f) (escapeASCII c ++ t) = prepend (String c "") (parseChars f t).
Proof.
  destruct c as [[] [] [] [] [] [] [] []]; intros H;
    try (vm_compute in H; discriminate H); reflexivity.
Qed.

Lemma notASCII_plain c :
  isASCII c = false ->
  Ascii.eqb c quoteMark = false /\ Ascii.eqb c backslash = false
  /\ N.ltb (code c) 32 = false.
Proof.
  destruct c as [[] [] [] [] [] [] [] []]; intros H;
    try (vm_compute in H; discriminate H); repeat split.
Qed.

Lemma parseChars_escapePiece p f t :
  wfPiece p ->
  parseChars (S f) (escapePiece p ++ t) = prepend (pieceBytes p) (parseChars f t).
Proof.
  destruct p as [c|bytes|c]; intros W.
  - now apply parseChars_escapeASCII.
  - cbn [escapePiece pieceBytes].
    destruct (String.eqb_spec bytes lineSeparator) as [->|_]; [reflexivity|].
    destruct (String.eqb_spec bytes paragraphSeparator) as [->|_]; [reflexivity|].
    destruct W as (c & r & -> & A & L). specialize (L t).
    destruct (notASCII_plain c A) as (Q & B & C).
    change (String c r ++ t) with (String c (r ++ t)) in *.
    cbn [parseChars]. rewrite Q, B, C, A, L.
    change (String c (r ++ t)) with (String c r ++ t).
    now rewrite sliceTo_length, sliceFrom_length.
  - reflexivity.
Qed.

Lemma parseChars_pieces ps : forall f t,
  Forall wfPiece ps ->
  List.length ps < f ->
  parseChars f (String.concat "" (map escapePiece ps) ++ String quoteMark t)
  = Some (String.concat "" (map pieceBytes ps), t).
Proof.
  induction ps as [|p ps IH]; intros f t W Hf.
  - destruct f; [inversion Hf|reflexivity].
  - inversion W as [|? ? Wp Wps]; subst. destruct f as [|f]; [inversion Hf|].
    cbn [map]. rewrite !concat_cons, append_assoc, parseChars_escapePiece by exact Wp.
    rewrite IH by (simpl in Hf; auto with arith). reflexivity.
Qed.

Lemma escapePiece_length p : wfPiece p -> 1 <= String.length (escapePiece p).
Proof.
  destruct p as [c|bytes|c]; intros W.
  - unfold escapePiece, escapeASCII.
    repeat match goal with |- context [if ?b then _ else _] => destruct b end;
      simpl; lia.
  - cbn [escapePiece].
    destruct (bytes =? lineSeparator); [simpl; lia|].
    destruct (bytes =? paragraphSeparator); [simpl; lia|].
    destruct W as (c & r & -> & _). simpl. lia.
  - simpl. lia.
Qed.

Lemma escaped_length ps :
  Forall wfPiece ps ->
  List.length ps <= String.length (String.concat "" (map escapePiece ps)).
Proof.
  induction 1 as [|p ps Wp _ IH]; [simpl; lia|].
  cbn [map]. rewrite concat_cons, length_append.
  pose proof (escapePiece_length p Wp). simpl. lia.
Qed.

(** The literal [quote s] is read as the string [s] coerced to UTF-8. *)
Lemma parseString_quote s t :
  exists body, quote s ++ t = String quoteMark (body ++ String quoteMark t)
               /\ parseString (body ++ String quoteMark t) = Some (coerce s, t).
Proof.
  exists (String.concat "" (map escapePiece (pieces (String.length s) s))).
  split.
  - unfold quote. simpl. now rewrite append_assoc.
  - unfold parseString, coerce. apply parseChars_pieces; [apply pieces_wf|].
    rewrite length_append.
    pose proof (escaped_length _ (pieces_wf (String.length s) s)). lia.
Qed.

(** *** Arrays and objects are read back *)

Lemma skipSpace_start c t :
  isSpace c = false -> skipSpace (String c t) = String c t.
Proof. intros H. simpl. now rewrite H. Qed.

Lemma parseValue_string f d r :
  parseValue (S f) d (String quoteMark r)
  = match parseString r with
    | Some (str, rest) => Some (Str str, rest)
    | None => None
    end.
Proof. reflexivity. Qed.

Lemma parseValue_array f d r :
  (d < maxNestingDepth)%N ->
  parseValue (S f) d (String "[" r)
  = if startsWith "]" (skipSpace r) then
      Some (Array [], GoStrings.sliceFrom 1 (skipSpace r))
    else match parseElements f (N.succ d) r with
         | Some (vs, rest) => Some (Array vs, rest)
         | None => None
         end.
Proof.
  intros H. apply N.ltb_lt in H.
  change (parseValue (S f) d (String "[" r))
    with (if negb (N.ltb d maxNestingDepth) then None
          else if startsWith "]" (skipSpace r) then
            Some (Array [], GoStrings.sliceFrom 1 (skipSpace r))
          else match parseElements f (N.succ d) r with
               | Some (vs, rest) => Some (Array vs, rest)
               | None => None
               end).
  now rewrite H.
Qed.

Lemma parseValue_object f d r :
  (d < maxNestingDepth)%N ->
  parseValue (S f) d (String "{" r)
  = if startsWith "}" (skipSpace r) then
      Some (Object [], GoStrings.sliceFrom 1 (skipSpace r))
    else match parseMembers f (N.succ d) r with
         | Some (ms, rest) => Some (Object ms, rest)
         | None => None
         end.
Proof.
  intros H. apply N.ltb_lt in H.
  change (parseValue (S f) d (String "{" r))
    with (if negb (N.ltb d maxNestingDepth) then None
          else if startsWith "}" (skipSpace r) then
            Some (Object [], GoStrings.sliceFrom 1 (skipSpace r))
          else match parseMembers f (N.succ d) r with
               | Some (ms, rest) => Some (Object ms, rest)
               | None => None
               end).
  now rewrite H.
Qed.

(** An array or object opened inside [maxNestingDepth] others is refused. *)
Lemma parseValue_too_deep f d c r :
  (maxNestingDepth <= d)%N ->
  c = "["%char \/ c = "{"%char ->
  parseValue f d (String c r) = None.
Proof.
  intros H C. apply N.ltb_ge in H. destruct f as [|f]; [reflexivity|].
  destruct C as [-> | ->].
  - change (parseValue (S f) d (String "[" r))
      with (if negb (N.ltb d maxNestingDepth) then None
            else if startsWith "]" (skipSpace r) then
              Some (Array [], GoStrings.sliceFrom 1 (skipSpace r))
            else match parseElements f (N.succ d) r with
                 | Some (vs, rest) => Some (Array vs, rest)
                 | None => None
                 end).
    now rewrite H.
  - change (parseValue (S f) d (String "{" r))
      with (if negb (N.ltb d maxNestingDepth) then None
            else if startsWith "}" (skipSpace r) then
              Some (Object [], GoStrings.sliceFrom 1 (skipSpace r))
            else match parseMembers f (N.succ d) r with
                 | Some (ms, rest) => Some (Object ms, rest)
                 | None => None
                 end).
    now rewrite H.
Qed.

Lemma parseElements_S f d s :
  parseElements (S f) d s
  = match parseValue f d s with
    | None => None
    | Some (v, r) =>
        match skipSpace r with
        | String c r' =>
            if Ascii.eqb c "," then
              match parseElements f d r' with
              | Some (vs, rest) => Some (v :: vs, rest)
              | None => None
              end
            else if Ascii.eqb c "]" then Some ([v], r')
            else None
        | EmptyString => None
        end
    end.
Proof. reflexivity. Qed.

Lemma parseMembers_S f d r :
  parseMembers (S f) d (String quoteMark r)
  = match parseString r with
    | None => None
    | Some (key, r1) =>
        if startsWith ":" (skipSpace r1) then
          match parseValue f d (GoStrings.sliceFrom 1 (skipSpace r1)) with
          | None => None
          | Some (v, r3) =>
              match skipSpace r3 with
              | String c r4 =>
                  if Ascii.eqb c "," then
                    match parseMembers f d r4 with
                    | Some (ms, rest) => Some ((key, v) :: ms, rest)
                    | None => None
                    end
                  else if Ascii.eqb c "}" then Some ([(key, v)], r4)
                  else None
              | EmptyString => None
              end
          end
        else None
    end.
Proof. reflexivity. Qed.

Lemma Reads_quote h s : Reads h (quote s) (Str (coerce s)).
Proof.
  split.
  - unfold quote. eexists _, _. repeat split.
  - intros f d rest Hf _. destruct (parseString_quote s rest) as (body & E & P).
    rewrite E. destruct f as [|f]; [unfold quote in Hf; simpl in Hf; lia|].
    now rewrite parseValue_string, P.
Qed.

(** What is read where [h] levels are left is read where more are. *)
Lemma Reads_le h h' text v : (h <= h')%N -> Reads h text v -> Reads h' text v.
Proof.
  intros L [S R]. split; [exact S|]. intros f d rest Hf Hd. apply R; lia.
Qed.

Lemma concat_cons2 sep x y l :
  String.concat sep (x :: y :: l) = x ++ sep ++ String.concat sep (y :: l).
Proof. reflexivity. Qed.

Lemma parseElements_concat h texts vs :
  Forall2 (Reads h) texts vs ->
  texts <> [] ->
  forall f d rest,
    2 * String.length (String.concat "," texts) + 1 <= f ->
    (d + h <= maxNestingDepth)%N ->
    parseElements f d (String.concat "," texts ++ String "]" rest)
    = Some (vs, rest).
Proof.
  induction 1 as [|t v ts vs' R Rs IH]; intros Hne f d rest Hf Hd; [contradiction|].
  destruct f as [|f]; [lia|]. rewrite parseElements_S.
  destruct R as [_ R]. destruct ts as [|t2 ts].
  - inversion Rs; subst. simpl String.concat in *.
    rewrite R by (lia || exact Hd). reflexivity.
  - rewrite concat_cons2 in *. rewrite length_append in Hf. simpl in Hf.
    rewrite append_assoc. simpl. rewrite R by (lia || exact Hd).
    cbn [skipSpace isSpace]. simpl.
    now rewrite IH
      by (try discriminate; try exact Hd; rewrite ?length_append; simpl; lia).
Qed.

Lemma Reads_starts h text v rest :
  Reads h text v ->
  skipSpace (text ++ rest) = text ++ rest
  /\ startsWith "]" (text ++ rest) = false
  /\ startsWith "}" (text ++ rest) = false.
Proof.
  intros [(c & t & -> & S & A & O) _]. simpl. now rewrite S.
Qed.

Lemma Reads_array h texts vs :
  Forall2 (Reads h) texts vs -> Reads (N.succ h) (array texts) (Array vs).
Proof.
  intros H. split; [unfold array; eexists _, _; repeat split|].
  intros f d rest Hf Hd. unfold array in *.
  remember (String.concat "," texts) as body eqn:Eb.
  cbn [append String.length] in Hf |- *. rewrite length_append in Hf.
  rewrite append_assoc. cbn [append].
  destruct f as [|f]; [lia|]. rewrite parseValue_array by lia.
  destruct H as [|t v ts vs' R Rs]; [subst body; reflexivity|].
  assert (E : exists t', body = t ++ t').
  { subst body. destruct ts; [exists ""; simpl; now rewrite append_nil_r|].
    eexists; reflexivity. }
  destruct E as [t' E].
  destruct (Reads_starts h t v (t' ++ String "]" rest) R) as (S1 & S2 & _).
  rewrite E, append_assoc, S1, S2, <- append_assoc, <- E. subst body.
  rewrite (parseElements_concat h (t :: ts) (v :: vs')); try discriminate.
  - reflexivity.
  - now constructor.
  - change (String.length "]") with 1 in Hf. lia.
  - lia.
Qed.

Lemma parseMembers_concat h texts kvs :
  Forall2 (ReadsMember h) texts kvs ->
  texts <> [] ->
  forall f d rest,
    2 * String.length (String.concat "," texts) + 1 <= f ->
    (d + h <= maxNestingDepth)%N ->
    parseMembers f d (String.concat "," texts ++ String "}" rest)
    = Some (kvs, rest).
Proof.
  induction 1 as [|m [key v] ts kvs' R Rs IH]; intros Hne f d rest Hf Hd;
    [contradiction|].
  destruct f as [|f]; [lia|].
  destruct R as (val & Em & K & R). cbn [fst snd] in *.
  assert (Hl : String.length m = String.length key + String.length val + 3)
    by (rewrite Em, length_append; simpl; lia).
  assert (Hv : forall rest',
    parseMembers (S f) d (m ++ rest')
    = match parseValue f d (val ++ rest') with
      | None => None
      | Some (v, r3) =>
          match skipSpace r3 with
          | String c r4 =>
              if Ascii.eqb c "," then
                match parseMembers f d r4 with
                | Some (ms, rest) => Some ((key, v) :: ms, rest)
                | None => None
                end
              else if Ascii.eqb c "}" then Some ([(key, v)], r4)
              else None
          | EmptyString => None
          end
      end).
  { intros rest'. rewrite Em. cbn [append]. rewrite append_assoc. cbn [append].
    rewrite parseMembers_S, K. reflexivity. }
  clear Em. destruct R as [_ R]. destruct ts as [|t2 ts].
  - inversion Rs; subst. cbn [String.concat] in *.
    rewrite Hv, R by (lia || exact Hd). reflexivity.
  - rewrite concat_cons2 in *. rewrite !length_append in Hf.
    change (String.length ",") with 1 in Hf.
    rewrite append_assoc, Hv. cbn [append]. rewrite R by (lia || exact Hd).
    cbn [skipSpace]. change (isSpace ",") with false. cbv iota.
    change (Ascii.eqb "," ",") with true. cbv iota.
    now rewrite IH by (try discriminate; try exact Hd; lia).
Qed.

Lemma Reads_object h texts kvs :
  Forall2 (ReadsMember h) texts kvs -> Reads (N.succ h) (object texts) (Object kvs).
Proof.
  intros H. split; [unfold object; eexists _, _; repeat split|].
  intros f d rest Hf Hd. unfold object in *.
  remember (String.concat "," texts) as body eqn:Eb.
  cbn [append String.length] in Hf |- *. rewrite length_append in Hf.
  rewrite append_assoc. cbn [append].
  destruct f as [|f]; [lia|]. rewrite parseValue_object by lia.
  destruct H as [|t kv ts kvs' R Rs]; [subst body; reflexivity|].
  assert (E : exists t', body = String quoteMark t').
  { subst body. destruct R as (val & -> & _). destruct ts; eexists; reflexivity. }
  destruct E as [t' E]. rewrite E. cbn [append skipSpace].
  change (isSpace quoteMark) with false. cbv iota.
  change (startsWith "}" (String quoteMark (t' ++ String "}" rest))) with false.
  cbv iota. change (String quoteMark (t' ++ String "}" rest))
    with (String quoteMark t' ++ String "}" rest).
  rewrite <- E. subst body.
  rewrite (parseMembers_concat h (t :: ts) (kv :: kvs')); try discriminate.
  - reflexivity.
  - now constructor.
  - change (String.length "}") with 1 in Hf. lia.
  - lia.
Qed.

(** *** The documents of [Marshal] *)

Ltac plain_key := intros t; reflexivity.

Lemma PlainKey_sha : PlainKey "sha". Proof. plain_key. Qed.
Lemma PlainKey_url : PlainKey "url". Proof. plain_key. Qed.
Lemma PlainKey_release_name : PlainKey "release_name". Proof. plain_key. Qed.
Lemma PlainKey_version : PlainKey "version". Proof. plain_key. Qed.
Lemma PlainKey_fixes : PlainKey "fixes". Proof. plain_key. Qed.
Lemma PlainKey_features : PlainKey "features". Proof. plain_key. Qed.
Lemma PlainKey_maintenance : PlainKey "maintenance". Proof. plain_key. Qed.
Lemma PlainKey_changes : PlainKey "changes". Proof. plain_key. Qed.
Lemma PlainKey_name : PlainKey "name". Proof. plain_key. Qed.
Lemma PlainKey_zipball_url : PlainKey "zipball_url". Proof. plain_key. Qed.
Lemma PlainKey_tarball_url : PlainKey "tarball_url". Proof. plain_key. Qed.
Lemma PlainKey_commit : PlainKey "commit". Proof. plain_key. Qed.
Lemma PlainKey_release_notes : PlainKey "release_notes". Proof. plain_key. Qed.

Create HintDb json discriminated.

#[local] Hint Resolve PlainKey_sha PlainKey_url PlainKey_release_name
  PlainKey_version PlainKey_fixes PlainKey_features PlainKey_maintenance
  PlainKey_changes PlainKey_name PlainKey_zipball_url PlainKey_tarball_url
  PlainKey_commit PlainKey_release_notes Reads_quote : json.

Lemma member_optional h key omitted text v :
  PlainKey key -> Reads h text v ->
  Forall2 (ReadsMember h) (member key omitted text) (optional key omitted v).
Proof.
  intros K R. unfold member, optional. destruct omitted; constructor; [|constructor].
  now exists text.
Qed.

(** The nesting of what [Marshal] writes: the strings of the notes stand
    inside four arrays and objects. *)
Lemma Reads_strings l : Reads 1 (encodeStrings l) (stringsValue l).
Proof.
  apply (Reads_array 0). induction l; simpl; constructor; auto using Reads_quote.
Qed.

#[local] Hint Resolve member_optional Reads_strings Forall2_app : json.

Lemma Reads_commit c : Reads 1 (encodeCommit c) (commitValue c).
Proof. apply (Reads_object 0). auto with json. Qed.

Lemma Reads_notes n : Reads 2 (encodeReleaseNotes n) (notesValue n).
Proof. apply (Reads_object 1). auto 10 with json. Qed.

Lemma Reads_release r : Reads 3 (encodeRelease r) (releaseValue r).
Proof.
  assert (C : Reads 2 (encodeCommit (Release_Commit r))
                (commitValue (Release_Commit r)))
    by (apply (Reads_le 1); [lia|apply Reads_commit]).
  apply (Reads_object 2). unfold releaseValue.
  repeat apply Forall2_app; auto with json.
  destruct (Release_ReleaseNotes r); [|constructor].
  auto using Reads_notes with json.
Qed.

Lemma Reads_store rs : Reads 4 (Marshal rs) (Array (map releaseValue rs)).
Proof.
  apply (Reads_array 3). induction rs; simpl; constructor; auto using Reads_release.
Qed.

Lemma parse_Marshal rs : parse (Marshal rs) = Some (Array (map releaseValue rs)).
Proof.
  unfold parse. destruct (Reads_store rs) as [_ R].
  rewrite <- (append_nil_r (Marshal rs)) at 2.
  rewrite R by (unfold maxNestingDepth; lia). reflexivity.
Qed.

(** *** The decoder on these documents *)

Lemma decodeMembers_app {A} (field : A -> string -> value -> option A) ms1 :
  forall a ms2,
  decodeMembers field a (ms1 ++ ms2)
  = match decodeMembers field a ms1 with
    | Some a' => decodeMembers field a' ms2
    | None => None
    end.
Proof.
  induction ms1 as [|[k v] ms1 IH]; intros a ms2; simpl; [reflexivity|].
  destruct (field a (foldKey k) v); [apply IH|reflexivity].
Qed.

(** A field that is written sets the struct; one that is omitted had the
    zero value, with which the struct started. *)
Lemma decode_optional {A} (field : A -> string -> value -> option A)
  (a a' : A) key omitted v ms :
  (omitted = false -> field a (foldKey key) v = Some a') ->
  (omitted = true -> a' = a) ->
  decodeMembers field a (optional key omitted v ++ ms)
  = decodeMembers field a' ms.
Proof.
  intros Hw Ho. destruct omitted; simpl.
  - now rewrite Ho.
  - now rewrite Hw.
Qed.

Lemma decode_string_elements l :
  decodeElements decodeString "" [] (map stringValue l) = Some (map coerce l).
Proof.
  induction l as [|s l IH]; simpl; [reflexivity|]. now rewrite IH.
Qed.

(** Into a nil slice nothing comes back from behind. *)
Lemma decode_strings l :
  decodeSlice decodeString "" [] [] (stringsValue l) = Some (map coerce l, []).
Proof.
  destruct l as [|s l]; [reflexivity|].
  unfold stringsValue, decodeSlice. cbn [map app].
  change (stringValue s :: map stringValue l) with (map stringValue (s :: l)).
  rewrite decode_string_elements. cbn [option_map map].
  now rewrite skipn_nil.
Qed.

Lemma empty_string s : (s =? "") = true -> coerce s = "".
Proof. intros H. apply String.eqb_eq in H. now subst. Qed.

Lemma no_entries l : noEntries l = true -> map coerce l = [].
Proof. destruct l; [reflexivity|discriminate]. Qed.

Lemma decode_commit c :
  decodeStruct commitField (mkCommit "" "") (commitValue c) = Some (coerceCommit c).
Proof.
  unfold commitValue, decodeStruct, coerceCommit.
  rewrite (decode_optional _ _ (mkCommit (coerce (Sha c)) ""));
    [|reflexivity|intros H; now rewrite empty_string].
  rewrite <- (List.app_nil_r (optional "url" _ _)).
  rewrite (decode_optional _ _ (mkCommit (coerce (Sha c)) (coerce (Url c))));
    [reflexivity|reflexivity|intros H; now rewrite (empty_string (Url c))].
Qed.

Ltac decode_entries :=
  cbn -[decodeSlice stringsValue]; now rewrite decode_strings.

Lemma decode_notes n :
  decodeNotes None noBehind (notesValue n) = Some (Some (coerceNotes n), noBehind).
Proof.
  unfold notesValue, decodeNotes, coerceNotes.
  rewrite (decode_optional _ _
    (mkReleaseNotes (coerce (ReleaseName n)) "" [] [] [] [], noBehind));
    [|reflexivity|intros H; now rewrite empty_string].
  rewrite (decode_optional _ _
    (mkReleaseNotes (coerce (ReleaseName n)) (coerce (Version n)) [] [] [] [],
     noBehind));
    [|reflexivity|intros H; now rewrite (empty_string (Version n))].
  rewrite (decode_optional _ _
    (mkReleaseNotes (coerce (ReleaseName n)) (coerce (Version n))
       (map coerce (Fixes n)) [] [] [], noBehind));
    [|decode_entries|intros H; now rewrite no_entries].
  rewrite (decode_optional _ _
    (mkReleaseNotes (coerce (ReleaseName n)) (coerce (Version n))
       (map coerce (Fixes n)) (map coerce (Features n)) [] [], noBehind));
    [|decode_entries|intros H; now rewrite (no_entries (Features n))].
  rewrite (decode_optional _ _
    (mkReleaseNotes (coerce (ReleaseName n)) (coerce (Version n))
       (map coerce (Fixes n)) (map coerce (Features n))
       (map coerce (Maintenance n)) [], noBehind));
    [|decode_entries|intros H; now rewrite (no_entries (Maintenance n))].
  rewrite <- (List.app_nil_r (optional "changes" _ _)).
  rewrite (decode_optional _ _
    (mkReleaseNotes (coerce (ReleaseName n)) (coerce (Version n))
       (map coerce (Fixes n)) (map coerce (Features n))
       (map coerce (Maintenance n)) (map coerce (Changes n)), noBehind));
    [reflexivity|decode_entries|intros H; now rewrite (no_entries (Changes n))].
Qed.

Lemma decode_release r :
  decodeStruct releaseField (zeroRelease, noBehind) (releaseValue r)
  = Some (coerceRelease r, noBehind).
Proof.
  unfold releaseValue, decodeStruct, coerceRelease, zeroRelease.
  rewrite (decode_optional _ _
    (mkRelease (coerce (Name r)) "" "" (mkCommit "" "") None, noBehind));
    [|reflexivity|intros H; now rewrite empty_string].
  rewrite (decode_optional _ _
    (mkRelease (coerce (Name r)) (coerce (ZipballUrl r)) "" (mkCommit "" "") None,
     noBehind));
    [|reflexivity|intros H; now rewrite (empty_string (ZipballUrl r))].
  rewrite (decode_optional _ _
    (mkRelease (coerce (Name r)) (coerce (ZipballUrl r)) (coerce (TarballUrl r))
       (mkCommit "" "") None, noBehind));
    [|reflexivity|intros H; now rewrite (empty_string (TarballUrl r))].
  rewrite (decode_optional _ _
    (mkRelease (coerce (Name r)) (coerce (ZipballUrl r)) (coerce (TarballUrl r))
       (coerceCommit (Release_Commit r)) None, noBehind));
    [|intros _; cbn -[decodeStruct commitValue]; now rewrite decode_commit|discriminate].
  destruct (Release_ReleaseNotes r) as [n|]; [|reflexivity].
  rewrite <- (List.app_nil_r (optional "release_notes" _ _)).
  rewrite (decode_optional _ _
    (mkRelease (coerce (Name r)) (coerce (ZipballUrl r)) (coerce (TarballUrl r))
       (coerceCommit (Release_Commit r)) (Some (coerceNotes n)), noBehind));
    [reflexivity|intros _; cbn -[decodeNotes notesValue]; now rewrite decode_notes
    |discriminate].
Qed.

Lemma decode_release_elements rs :
  decodeElements (decodeStruct releaseField) (zeroRelease, noBehind) []
    (map releaseValue rs)
  = Some (map (fun r => (coerceRelease r, noBehind)) rs).
Proof.
  induction rs as [|r rs IH]; [reflexivity|].
  cbn [map decodeElements]. now rewrite decode_release, IH.
Qed.

Lemma decode_store rs :
  decode (Array (map releaseValue rs)) = Some (map coerceRelease rs).
Proof.
  destruct rs as [|r rs]; [reflexivity|].
  unfold decode, decodeSlice. cbn [map app].
  change (releaseValue r :: map releaseValue rs) with (map releaseValue (r :: rs)).
  rewrite decode_release_elements. cbn [option_map fst].
  now rewrite map_map.
Qed.

(** What the decoder gives for any document has one release for each
    element of its array. *)
Lemma decodeElements_length {A} (dec : A -> value -> option A) zero vs :
  forall backing l,
  decodeElements dec zero backing vs = Some l -> List.length l = List.length vs.
Proof.
  induction vs as [|v vs IH]; intros backing l; simpl.
  - now intros [= <-].
  - destruct backing as [|o os]; destruct (dec _ v); try discriminate;
      destruct (decodeElements dec zero _ vs) eqn:E; try discriminate;
      intros [= <-]; simpl; f_equal; eapply IH, E.
Qed.

(** What comes back is the store with its strings coerced to UTF-8. *)
Lemma Unmarshal_Marshal rs :
  Unmarshal (Marshal rs) = Some (map coerceRelease rs).
Proof. unfold Unmarshal. rewrite parse_Marshal. apply decode_store. Qed.

Lemma coerce_validStrings l : validStrings l = true -> map coerce l = l.
Proof.
  induction l as [|s l IH]; simpl; [reflexivity|]. intros H.
  apply andb_true_iff in H. destruct H as [H1 H2].
  now rewrite coerce_valid, IH.
Qed.

Lemma coerce_validNotes n : validNotes n = true -> coerceNotes n = n.
Proof.
  unfold validNotes, coerceNotes. intros H.
  repeat (apply andb_true_iff in H; destruct H as [H ?]).
  rewrite !coerce_valid, !coerce_validStrings by assumption. now destruct n.
Qed.

Lemma coerce_validRelease r : validRelease r = true -> coerceRelease r = r.
Proof.
  unfold validRelease, coerceRelease, coerceCommit. intros H.
  repeat (apply andb_true_iff in H; destruct H as [H ?]).
  rewrite !coerce_valid by assumption.
  destruct r as [n z t [sha url] [notes|]]; simpl in *; [|reflexivity].
  now rewrite coerce_validNotes.
Qed.

Lemma coerce_validStore rs : validStore rs = true -> map coerceRelease rs = rs.
Proof.
  induction rs as [|r rs IH]; simpl; [reflexivity|]. intros H.
  apply andb_true_iff in H. destruct H as [H1 H2].
  now rewrite coerce_validRelease, IH.
Qed.

End JsonFacts.

(** What the loop body can do to the comment buffer. *)
Lemma comment_processLine st line :
  comment (processLine st line) = comment st
  \/ (isContinuation line = true
      /\ comment (processLine st line)
         = comment st ++ nl ++ GoStrings.TrimSpace line)
  \/ (isReleaseHeading line = true /\ comment (processLine st line) = "")
  \/ (Regexp.MatchString (release st) = true /\ isKnownCategory line = true
      /\ comment (processLine st line) = "")
  \/ (Regexp.MatchString (release st) = true /\ isBullet line = true
      /\ comment (processLine st line) = GoStrings.sliceFrom 2 line).
Proof.
  destruct (startsBoundary line) eqn:B.
  - destruct (GoStrings.HasPrefix line "## ") eqn:R.
    { right; right; left. rewrite isReleaseHeading_HasPrefix.
      split; [exact R|]. now rewrite processLine_release. }
    destruct (Regexp.MatchString (release st)) eqn:G.
    2:{ left. now rewrite processLine_gated. }
    rewrite processLine_open by assumption.
    destruct (isBullet line) eqn:Bu.
    { right; right; right; right. split; [reflexivity|]. split; [reflexivity|].
      unfold bullet. now rewrite Bu. }
    unfold bullet. rewrite Bu.
    destruct (isKnownCategory line) eqn:K.
    + right; right; right; left. split; [reflexivity|]. split; [reflexivity|].
      now apply isKnownCategory_true.
    + left. now rewrite isKnownCategory_false.
  - apply startsBoundary_false in B. destruct B as [E | C].
    + left. unfold processLine. now rewrite E.
    + right; left. split; [exact C|]. now rewrite processLine_continuation.
Qed.

(** ** The scanner on a last line *)

Lemma splitLines_last l : forall cur,
  oneLine l = true ->
  Bufio.splitLines cur l
  = match cur ++ l with EmptyString => [] | t => [t] end.
Proof.
  induction l as [|c l IH]; intros cur H; simpl.
  - rewrite RegexpFacts.append_nil_r. now destruct cur.
  - simpl in H. apply andb_true_iff in H. destruct H as [N H].
    apply negb_true_iff in N. rewrite N, IH by exact H.
    now rewrite RegexpFacts.append_assoc.
Qed.



(** ** The claims *)




(** C2.  For every changelog and store, the store the parser leaves is the
    one left by the last iteration of the scan loop: a comment still buffered
    at the end of the input is not dispatched, so that whenever a dispatch
    would have changed the store (the buffer is not empty and a release
    carries the current version tag) the result differs from what the
    dispatch gives.  A buffered comment is dispatched only by a further text
    that starts, once trimmed, with ['#'] or ['*']; any other further text
    leaves the store as it is. *)
Theorem pending_comment_not_flushed_at_end (changelog : string) (rs : list Release) :
  let texts := Bufio.scanTexts changelog in
  let st := fold_left loopBody texts (initial rs) in
  parseChangelog changelog rs = releases st
  /\ (comment st <> "" ->
      (exists r, In r (releases st) /\ Name r = name st) ->
      parseChangelog changelog rs <> flushComment st)
  /\ (forall text,
      parseLines (texts ++ [text]) rs
      = if isBoundary text then flushComment st
        else parseChangelog changelog rs).
Proof.
  intros texts st. split; [reflexivity|]. split.
  - intros Hc Hr. change (releases st <> flushComment st).
    rewrite flushComment_map.
    destruct (String.eqb_spec (comment st) ""); [contradiction|].
    intros E. symmetry in E. revert E. now apply map_attach_changes.
  - intros text. unfold parseChangelog, parseLines. fold texts.
    rewrite fold_left_snoc. fold st. apply releases_loopBody.
Qed.

Lemma pending_comment_not_flushed_at_end_witness :
  let changelog := "## jest 24.0.0" ++ nl ++ "* fixed the thing" in
  let rs := [tag "v24.0.0"] in
  let st := fold_left loopBody (Bufio.scanTexts changelog) (initial rs) in
  comment st <> ""
  /\ (exists r, In r (releases st) /\ Name r = name st)
  /\ parseChangelog changelog rs = rs
  /\ parseChangelog changelog rs <> flushComment st.
Proof.
  intros changelog rs st.
  assert (C : comment st <> "") by discriminate.
  assert (R : exists r, In r (releases st) /\ Name r = name st)
    by (exists (tag "v24.0.0"); split; [now left|reflexivity]).
  split; [exact C|]. split; [exact R|]. split; [reflexivity|].
  exact (proj1 (proj2 (pending_comment_not_flushed_at_end changelog rs)) C R).
Defined.

(** C3.  The comment buffer changes only by a continuation line, which adds
    to it, by a release heading or a known category heading, which empty it,
    and by a bullet, which replaces it.  A heading or bullet line of none of
    these three kinds dispatches the buffer and leaves it as it is, not
    empty; so the changelog below, a bullet followed by two such lines,
    appends the text of the bullet twice to the changes of its release. *)
Theorem comment_buffer_survives_flush :
  (forall st line,
     comment (processLine st line) <> comment st ->
     (isContinuation line = true
      /\ comment (processLine st line)
         = comment st ++ nl ++ GoStrings.TrimSpace line)
     \/ (isReleaseHeading line = true /\ comment (processLine st line) = "")
     \/ (isKnownCategory line = true /\ comment (processLine st line) = "")
     \/ (isBullet line = true
         /\ comment (processLine st line) = GoStrings.sliceFrom 2 line))
  /\ (forall st line,
     startsBoundary line = true ->
     isReleaseHeading line = false -> isKnownCategory line = false ->
     isBullet line = false ->
     processLine st line = flushed st
     /\ comment (processLine st line) = comment st
     /\ releases (processLine st line) = flushComment st)
  /\ parseChangelog
       ("## jest 1.0.0" ++ nl ++ "* foo" ++ nl ++ "### Other" ++ nl ++ "### More")
       [tag "v1.0.0"]
     = [mkRelease "v1.0.0" "" "" (mkCommit "" "")
          (Some (mkReleaseNotes "jest 1.0.0" "v1.0.0" [] [] [] ["foo"; "foo"]))].
Proof.
  split; [|split; [|reflexivity]].
  - intros st line Hne.
    destruct (comment_processLine st line)
      as [E | [E | [E | [(_ & E) | (_ & E)]]]]; auto. contradiction.
  - intros st line B R K Bu.
    assert (E : processLine st line = flushed st).
    { rewrite isReleaseHeading_HasPrefix in R.
      destruct (Regexp.MatchString (release st)) eqn:G.
      - rewrite processLine_open by assumption.
        unfold bullet. rewrite Bu. now apply isKnownCategory_false.
      - now apply processLine_gated. }
    rewrite E. now repeat split.
Qed.

Lemma comment_buffer_survives_flush_witness :
  let st := mkState "jest 1.0.0" "v1.0.0" "foo" false false false [tag "v1.0.0"] in
  let line := "### Other" in
  startsBoundary line = true /\ isReleaseHeading line = false
  /\ isKnownCategory line = false /\ isBullet line = false
  /\ comment (processLine st line) = "foo"
  /\ releases (processLine st line)
     = [mkRelease "v1.0.0" "" "" (mkCommit "" "")
          (Some (mkReleaseNotes "jest 1.0.0" "v1.0.0" [] [] [] ["foo"]))].
Proof.
  intros st line. do 4 (split; [reflexivity|]).
  destruct comment_buffer_survives_flush as (_ & H & _).
  destruct (H st line eq_refl eq_refl eq_refl eq_refl) as (_ & C & R).
  split; [exact C|]. rewrite R. reflexivity.
Defined.

(** C4.  For every value of [line] that begins with ["## "] (the text of the
    scanner after its right trim), and every state, the loop body leaves the
    rest of the line as the release heading, ["v"] followed by the first
    match of the version pattern in that rest as the version tag, exactly
    ["v"] when the pattern matches nowhere in it, an empty comment buffer,
    and the three category flags down, which is the default category. *)
Theorem release_heading_line (st : State) (line : string) :
  GoStrings.HasPrefix line "## " = true ->
  let remainder := GoStrings.sliceFrom 3 line in
  let st' := processLine st line in
  line = "## " ++ remainder
  /\ release st' = remainder
  /\ match Regexp.Find remainder with
     | Some m => FirstMatch remainder m /\ name st' = "v" ++ m
     | None => NoMatch remainder /\ name st' = "v"
     end
  /\ comment st' = ""
  /\ fixes st' = false /\ features st' = false /\ maintenance st' = false
  /\ activeCategory st' = CatChanges.
Proof.
  intros H remainder st'. unfold st'. rewrite processLine_release by exact H.
  fold remainder. simpl. split; [apply (HasPrefix_split _ _ H)|].
  split; [reflexivity|]. split; [|now repeat split].
  pose proof (RegexpFacts.Find_spec remainder) as S.
  unfold Regexp.FindString. destruct (Regexp.Find remainder); now split.
Qed.

Lemma release_heading_line_witness :
  let st := mkState "jest 23.0.0" "v23.0.0" "stale" true false false [] in
  let line := "## jest 22.0.2 && 22.0.3" in
  let st' := processLine st line in
  GoStrings.HasPrefix line "## " = true
  /\ release st' = "jest 22.0.2 && 22.0.3" /\ name st' = "v22.0.2"
  /\ comment st' = "" /\ activeCategory st' = CatChanges.
Proof.
  intros st line st'. split; [reflexivity|].
  destruct (release_heading_line st line eq_refl)
    as (_ & R & N & C & _ & _ & _ & A).
  split; [exact R|]. split; [exact (proj2 N)|]. split; [exact C|exact A].
Defined.

(** C5, as stated, fails: under the heading ["## master"], which has no
    version, the line ["### Fixes"] neither selects the fixes nor clears the
    buffer, which holds the line ["note"] before and after. *)
Lemma category_heading_counterexample :
  let st := fold_left loopBody ["## master"; "note"] (initial []) in
  let st' := loopBody st "### Fixes" in
  GoStrings.HasPrefix "### Fixes" "### " = true
  /\ GoStrings.Contains "### Fixes" "Fixes" = true
  /\ comment st = nl ++ "note"
  /\ fixes st' = false /\ activeCategory st' = CatChanges
  /\ comment st' = nl ++ "note".
Proof. repeat split. Qed.

(** C5, amended.  For every value of [line] that begins with ["### "], met
    while the current release heading has a match of the version pattern:
    the first of "Fixes", "Features" and "Chore & Maintenance" that the line
    contains, in this order, becomes the active category and the comment
    buffer is emptied.  A line that contains none of the three leaves the
    flags and the buffer as they were, under any heading.  Under a heading
    without a version the line only dispatches the buffered comment. *)
Theorem category_heading_line (st : State) (line : string) :
  GoStrings.HasPrefix line "### " = true ->
  let st' := processLine st line in
  let has := GoStrings.Contains line in
  (Regexp.MatchString (release st) = true ->
     (has "Fixes" = true ->
        fixes st' = true /\ features st' = false /\ maintenance st' = false
        /\ activeCategory st' = CatFixes /\ comment st' = "")
     /\ (has "Fixes" = false -> has "Features" = true ->
        fixes st' = false /\ features st' = true /\ maintenance st' = false
        /\ activeCategory st' = CatFeatures /\ comment st' = "")
     /\ (has "Fixes" = false -> has "Features" = false ->
         has "Chore & Maintenance" = true ->
        fixes st' = false /\ features st' = false /\ maintenance st' = true
        /\ activeCategory st' = CatMaintenance /\ comment st' = ""))
  /\ (has "Fixes" = false -> has "Features" = false ->
      has "Chore & Maintenance" = false ->
      st' = flushed st)
  /\ (Regexp.MatchString (release st) = false -> st' = flushed st).
Proof.
  intros H st' has.
  assert (B : startsBoundary line = true)
    by (eapply HasPrefix_boundary; [exact H|reflexivity]).
  assert (R : GoStrings.HasPrefix line "## " = false)
    by (apply HasPrefix_split in H; rewrite H; reflexivity).
  assert (G : Regexp.MatchString (release st) = false -> st' = flushed st)
    by (intros G; now apply processLine_gated).
  split; [|split; [|exact G]].
  - intros M. unfold st'. rewrite processLine_category by assumption.
    unfold categoryHeading. rewrite isCategoryHeading_HasPrefix, H.
    fold has. repeat split; intros; 
      repeat match goal with E : has _ = _ |- _ => rewrite E; clear E end;
      reflexivity.
  - intros F1 F2 F3. destruct (Regexp.MatchString (release st)) eqn:M; [|now apply G].
    unfold st'. rewrite processLine_category by assumption.
    apply isKnownCategory_false. unfold isKnownCategory. fold has.
    rewrite F1, F2, F3. apply andb_false_r.
Qed.

Lemma category_heading_line_witness :
  let st := mkState "jest 24.0.0" "v24.0.0" "stale" true false false [] in
  let line := "### Features and Fixes" in
  let st' := processLine st line in
  GoStrings.HasPrefix line "### " = true
  /\ Regexp.MatchString (release st) = true
  /\ GoStrings.Contains line "Fixes" = true
  /\ activeCategory st' = CatFixes /\ comment st' = "".
Proof.
  intros st line st'. do 3 (split; [reflexivity|]).
  destruct (category_heading_line st line eq_refl) as [A _].
  destruct (A eq_refl) as [A1 _]. destruct (A1 eq_refl) as (_ & _ & _ & C & D).
  split; [exact C|exact D].
Defined.

(** C6, as stated, fails: the store below holds a release whose name is
    empty, the changelog has no line that begins with ["## "], and the parse
    attaches the line ["hello"] to that release as a change. *)
Lemma no_release_heading_counterexample :
  let changelog := "hello" ++ nl ++ "# x" in
  let rs := [tag ""] in
  (forall l, In l (Bufio.splitLines "" changelog) ->
             GoStrings.HasPrefix l "## " = false)
  /\ parseChangelog changelog rs
     = [mkRelease "" "" "" (mkCommit "" "")
          (Some (mkReleaseNotes "" "" [] [] [] [nl ++ "hello"]))]
  /\ parseChangelog changelog rs <> rs.
Proof.
  intros changelog rs. split; [|split].
  - intros l [<- | [<- | []]]; reflexivity.
  - reflexivity.
  - discriminate.
Qed.

(** C6, amended.  For every store in which no release has the empty name,
    and every changelog in which no scanned line begins with ["## "], the
    parser returns the store as it was. *)
Theorem no_release_heading_no_change (changelog : string) (rs : list Release) :
  (forall r, In r rs -> Name r <> "") ->
  (forall l, In l (Bufio.scanTexts changelog) ->
             GoStrings.HasPrefix l "## " = false) ->
  parseChangelog changelog rs = rs.
Proof.
  intros Hrs Hls.
  apply (preamble_fold rs Hrs (Bufio.scanTexts changelog) (initial rs) Hls).
  now repeat split.
Qed.

Lemma no_release_heading_no_change_witness :
  let changelog := "hello" ++ nl ++ "### Fixes" ++ nl ++ "* x" ++ nl ++ "#" in
  let rs := [tag "v24.0.0"; tag "v"] in
  (forall r, In r rs -> Name r <> "")
  /\ (forall l, In l (Bufio.scanTexts changelog) ->
                GoStrings.HasPrefix l "## " = false)
  /\ parseChangelog changelog rs = rs.
Proof.
  intros changelog rs.
  assert (N : forall r, In r rs -> Name r <> "")
    by (intros r [<- | [<- | []]]; discriminate).
  assert (L : forall l, In l (Bufio.scanTexts changelog) ->
                        GoStrings.HasPrefix l "## " = false)
    by (intros l [<- | [<- | [<- | [<- | []]]]]; reflexivity).
  split; [exact N|]. split; [exact L|].
  exact (no_release_heading_no_change changelog rs N L).
Defined.

(** C7, as stated, fails: under the heading ["## master"], which has no
    version, the bullet line is skipped, so the buffer holds only the second
    line, after a newline, and this is what the next heading dispatches. *)
Lemma multi_line_bullet_counterexample :
  let st := fold_left loopBody ["## master"; "* first line"; "second line"]
                      (initial [tag "v"]) in
  comment st = nl ++ "second line"
  /\ comment st <> "first line" ++ nl ++ "second line"
  /\ parseChangelog ("## master" ++ nl ++ "* first line" ++ nl ++ "second line"
                     ++ nl ++ "## jest 24.0.0")
                    [tag "v"]
     = [mkRelease "v" "" "" (mkCommit "" "")
          (Some (mkReleaseNotes "master" "v" [] [] [] [nl ++ "second line"]))].
Proof. split; [reflexivity|]. split; [discriminate|reflexivity]. Qed.

(** C7, amended.  Under a release heading that has a match of the version
    pattern, the bullet line ["* first line"] puts ["first line"] in the
    buffer and the line ["second line"] that follows it makes the buffer
    ["first line\nsecond line"]; the two lines dispatch nothing but what was
    buffered before them, and the next text that starts, once trimmed, with
    ['#'] or ['*'] appends that one entry, once, to the active category of
    every release that carries the current version tag. *)
Theorem multi_line_bullet (st : State) (text : string) :
  Regexp.MatchString (release st) = true ->
  isBoundary text = true ->
  let st1 := loopBody st "* first line" in
  let st2 := loopBody st1 "second line" in
  let entry := "first line" ++ nl ++ "second line" in
  comment st1 = "first line"
  /\ comment st2 = entry
  /\ releases st2 = flushComment st
  /\ forall i r,
       nth_error (flushComment st) i = Some r ->
       nth_error (releases (loopBody st2 text)) i
       = Some (if Name r =? name st then
                 withNotes r (appendNote (activeCategory st) (release st)
                                (name st) entry (notesOrZero r))
               else r).
Proof.
  intros G B st1 st2 entry.
  assert (E1 : st1 = mkState (release st) (name st) "first line"
                 (fixes st) (features st) (maintenance st) (flushComment st))
    by (apply (processLine_bullet st "* first line" eq_refl G)).
  assert (E2 : st2 = mkState (release st) (name st) entry
                 (fixes st) (features st) (maintenance st) (flushComment st))
    by (unfold st2; rewrite E1; reflexivity).
  rewrite E1, E2. repeat split.
  intros i r H. rewrite releases_loopBody, B, flushComment_map.
  cbn [comment releases release name]. 
  change (activeCategory (mkState _ _ _ _ _ _ _)) with (activeCategory st).
  change (entry =? "") with false. cbv iota.
  rewrite nth_error_map, H. reflexivity.
Qed.

Lemma multi_line_bullet_witness :
  let st := mkState "jest 24.0.0" "v24.0.0" "" false true false
                    [tag "v24.0.0"; tag "v23.6.0"] in
  let st2 := loopBody (loopBody st "* first line") "second line" in
  Regexp.MatchString (release st) = true
  /\ isBoundary "### Fixes" = true
  /\ comment st2 = "first line" ++ nl ++ "second line"
  /\ nth_error (releases (loopBody st2 "### Fixes")) 0
     = Some (mkRelease "v24.0.0" "" "" (mkCommit "" "")
               (Some (mkReleaseNotes "jest 24.0.0" "v24.0.0" []
                        ["first line" ++ nl ++ "second line"] [] []))).
Proof.
  intros st st2. do 2 (split; [reflexivity|]).
  destruct (multi_line_bullet st "### Fixes" eq_refl eq_refl) as (_ & C & _ & D).
  split; [exact C|]. exact (D 0 (tag "v24.0.0") eq_refl).
Defined.

(** C8, as stated, fails: a Go string is any sequence of bytes, and the
    changelog is taken from the network as it comes.  The entry below is
    "cafe" with an acute accent, in Latin-1: its last byte 0xE9 is not
    UTF-8.  [Marshal] writes the escape of U+FFFD in its place, so the entry
    read back ends with the three bytes of U+FFFD. *)
Lemma marshal_roundtrip_counterexample :
  let cafe := "caf" ++ String (ascii_of_nat 233) "" in
  let store (entry : string) :=
    [mkRelease "v24.0.0" "" "" (mkCommit "" "")
       (Some (mkReleaseNotes "jest 24.0.0" "v24.0.0" [entry] [] [] []))] in
  Json.quote cafe
  = String Json.quoteMark
      ("caf" ++ String Json.backslash "ufffd" ++ String Json.quoteMark "")
  /\ Json.Unmarshal (Json.Marshal (store cafe))
     = Some (store ("caf" ++ Utf8.replacement))
  /\ Json.Unmarshal (Json.Marshal (store cafe)) <> Some (store cafe).
Proof.
  intros cafe store. split; [reflexivity|]. split; [vm_compute; reflexivity|].
  vm_compute. discriminate.
Qed.

(** C8, amended.  For every store whose strings are all valid UTF-8, the
    text that [json.Marshal] writes for it is read back by [json.Unmarshal]
    as that very store, field for field: a field left out of the text by
    [omitempty] was empty and comes back empty (a nil and an empty sequence
    are the same list here).  For any store at all, what comes back is the
    store with each byte that belongs to no well-formed UTF-8 sequence
    replaced by U+FFFD; and the text written for the nil store is read back
    as the empty store. *)
Theorem marshal_roundtrip (rs : list Release) :
  validStore rs = true ->
  Json.Unmarshal (Json.Marshal rs) = Some rs
  /\ (forall rs', Json.Unmarshal (Json.Marshal rs') = Some (map coerceRelease rs'))
  /\ Json.Unmarshal Json.MarshalNil = Some [].
Proof.
  intros V. split; [|split].
  - rewrite JsonFacts.Unmarshal_Marshal. f_equal.
    now apply JsonFacts.coerce_validStore.
  - apply JsonFacts.Unmarshal_Marshal.
  - reflexivity.
Qed.

Lemma marshal_roundtrip_witness :
  let rs :=
    [mkRelease "v24.0.0" "https://api.github.com/zip?a=1&b=<2>" ""
       (mkCommit "0123abcd" "")
       (Some (mkReleaseNotes "jest 24.0.0" "v24.0.0"
                ["fixed " ++ String Json.quoteMark "the"
                 ++ String Json.quoteMark (" thing" ++ nl ++ "twice")]
                [] [] [String (ascii_of_nat 195) (String (ascii_of_nat 169) "t"
                       ++ String Json.backslash "o")]));
     tag "v23.6.0"; tag ""] in
  validStore rs = true /\ Json.Unmarshal (Json.Marshal rs) = Some rs.
Proof.
  intros rs. split; [reflexivity|].
  exact (proj1 (marshal_roundtrip rs eq_refl)).
Defined.

(** C9.  For every changelog and store, the parser leaves as many releases
    as it found, in the same order, each with its Name, ZipballUrl, TarballUrl
    and Commit as before; the notes of a release are created or kept, never
    removed, and each of their four sequences keeps its entries and can only
    receive more at its end. *)
Theorem parser_only_extends_notes (changelog : string) (rs : list Release) :
  List.length (parseChangelog changelog rs) = List.length rs
  /\ Forall2 sameTag rs (parseChangelog changelog rs).
Proof.
  assert (H : Forall2 sameTag rs (parseChangelog changelog rs))
    by apply (fold_loopBody_sameTag (Bufio.scanTexts changelog) (initial rs)).
  split; [|exact H]. symmetry. eapply Forall2_length, H.
Qed.

(** C10.  Every release whose name is the one looked for, at whatever index
    of the store, so the second and later ones of a run of equal names as
    well as the first, receives the line at the end of the sequence of the
    insert function, and has its ReleaseName and Version overwritten with the
    heading and the name; the dispatch of a buffered comment does this with
    the current heading and version tag, in the active category. *)
Theorem insert_updates_every_match
  (rs : list Release) (heading version line : string) (i : nat) (r : Release) :
  nth_error rs i = Some r ->
  Name r = version ->
  let n := notesOrZero r in
  nth_error (insertFix rs heading version line) i
  = Some (withNotes r (mkReleaseNotes heading version
       (Fixes n ++ [line])%list (Features n) (Maintenance n) (Changes n)))
  /\ nth_error (insertFeature rs heading version line) i
  = Some (withNotes r (mkReleaseNotes heading version
       (Fixes n) (Features n ++ [line])%list (Maintenance n) (Changes n)))
  /\ nth_error (insertMaintenance rs heading version line) i
  = Some (withNotes r (mkReleaseNotes heading version
       (Fixes n) (Features n) (Maintenance n ++ [line])%list (Changes n)))
  /\ nth_error (insertChange rs heading version line) i
  = Some (withNotes r (mkReleaseNotes heading version
       (Fixes n) (Features n) (Maintenance n) (Changes n ++ [line])%list))
  /\ forall st,
     releases st = rs -> release st = heading -> name st = version ->
     comment st = line -> line <> "" ->
     nth_error (flushComment st) i
     = Some (withNotes r (appendNote (activeCategory st) heading version line n)).
Proof.
  intros H E n.
  rewrite insertFix_map, insertFeature_map, insertMaintenance_map, insertChange_map.
  repeat split; try (now apply nth_error_map_attach).
  intros st <- <- En <- Hc. rewrite flushComment_map.
  destruct (String.eqb_spec (comment st) ""); [contradiction|].
  rewrite En. apply nth_error_map_attach; assumption.
Qed.

Lemma insert_updates_every_match_witness :
  let twin := mkRelease "v1.0.0" "second" "" (mkCommit "" "")
                (Some (mkReleaseNotes "old heading" "old" ["a"] [] [] ["b"])) in
  let rs := [mkRelease "v1.0.0" "first" "" (mkCommit "" "") None;
             tag "v2.0.0"; twin] in
  nth_error rs 2 = Some twin /\ Name twin = "v1.0.0"
  /\ nth_error (insertFix rs "jest 1.0.0" "v1.0.0" "c") 2
     = Some (mkRelease "v1.0.0" "second" "" (mkCommit "" "")
               (Some (mkReleaseNotes "jest 1.0.0" "v1.0.0" ["a"; "c"] [] [] ["b"])))
  /\ nth_error (insertChange rs "jest 1.0.0" "v1.0.0" "c") 0
     = Some (mkRelease "v1.0.0" "first" "" (mkCommit "" "")
               (Some (mkReleaseNotes "jest 1.0.0" "v1.0.0" [] [] [] ["c"]))).
Proof.
  intros twin rs. do 2 (split; [reflexivity|]). split.
  - exact (proj1 (insert_updates_every_match rs "jest 1.0.0" "v1.0.0" "c" 2 twin
                    eq_refl eq_refl)).
  - exact (proj1 (proj2 (proj2 (proj2
             (insert_updates_every_match rs "jest 1.0.0" "v1.0.0" "c" 0 _
                eq_refl eq_refl))))).
Defined.

(** ** Further properties of the insert functions *)

Lemma insertBy_map cat rs heading version line :
  insertBy cat rs heading version line
  = map (attach cat heading version line) rs.
Proof.
  destruct cat; simpl;
    auto using insertFix_map, insertFeature_map, insertMaintenance_map,
               insertChange_map.
Qed.

Lemma Name_attach cat heading version line r :
  Name (attach cat heading version line r) = Name r.
Proof. unfold attach. now destruct (Name r =? version). Qed.

Lemma entries_appendNote cat heading version line n c :
  entries c (appendNote cat heading version line n)
  = (entries c n ++ if sameCategory c cat then [line] else [])%list.
Proof. destruct cat, c; simpl; now rewrite ?List.app_nil_r. Qed.

(** X1.  The lookup by name with a name that is missing: each of the four
    insert functions returns the store as it was exactly when no release
    carries the name it is given. *)
Theorem insert_missing_name
  (cat : Category) (rs : list Release) (heading version line : string) :
  insertBy cat rs heading version line = rs
  <-> (forall r, In r rs -> Name r <> version).
Proof.
  rewrite insertBy_map. split.
  - intros E r Hin Hn.
    apply (map_attach_changes cat heading version line rs); [|exact E].
    now exists r.
  - apply map_attach_absent.
Qed.

(** X2.  Two inserts under one name, into whatever categories: a release of
    that name ends with the heading of the second insert as its ReleaseName,
    the first heading being lost, and with both lines kept, each at the end
    of its sequence, the first line before the second when the category is
    the same. *)
Theorem insert_twice_last_heading_wins
  (cat1 cat2 : Category) (rs : list Release)
  (heading1 heading2 version line1 line2 : string) (i : nat) (r : Release) :
  nth_error rs i = Some r ->
  Name r = version ->
  exists n,
    nth_error (insertBy cat2 (insertBy cat1 rs heading1 version line1)
                 heading2 version line2) i
    = Some (withNotes r n)
    /\ ReleaseName n = heading2 /\ Version n = version
    /\ forall c,
         entries c n
         = (entries c (notesOrZero r)
            ++ (if sameCategory c cat1 then [line1] else [])
            ++ (if sameCategory c cat2 then [line2] else []))%list.
Proof.
  intros H E. rewrite !insertBy_map, map_map, nth_error_map, H. cbn [option_map].
  rewrite (attach_same heading1 version line1 cat1 r E).
  rewrite attach_same by exact E.
  eexists. split; [reflexivity|]. split; [now destruct cat2|].
  split; [now destruct cat2|]. intros c.
  cbn [notesOrZero withNotes Release_ReleaseNotes].
  now rewrite !entries_appendNote, <- List.app_assoc.
Qed.

Lemma insert_twice_last_heading_wins_witness :
  let r := mkRelease "v24.0.0" "" "" (mkCommit "" "")
             (Some (mkReleaseNotes "old" "v24.0.0" ["a"] [] [] [])) in
  let rs := [tag "v23.6.0"; r] in
  nth_error rs 1 = Some r /\ Name r = "v24.0.0"
  /\ nth_error (insertFix (insertFix rs "jest 24.0.0" "v24.0.0" "b")
                  "24.0.0 again" "v24.0.0" "c") 1
     = Some (mkRelease "v24.0.0" "" "" (mkCommit "" "")
               (Some (mkReleaseNotes "24.0.0 again" "v24.0.0" ["a"; "b"; "c"]
                        [] [] []))).
Proof.
  intros r rs. do 2 (split; [reflexivity|]).
  destruct (insert_twice_last_heading_wins CatFixes CatFixes rs
              "jest 24.0.0" "24.0.0 again" "v24.0.0" "b" "c" 1 r eq_refl eq_refl)
    as (n & E & _).
  reflexivity.
Defined.

(** X3.  Inserts under two different names do not see each other: done in
    either order they leave the same store. *)
Theorem insert_other_name_commutes
  (cat1 cat2 : Category) (rs : list Release)
  (heading1 version1 line1 heading2 version2 line2 : string) :
  version1 <> version2 ->
  insertBy cat2 (insertBy cat1 rs heading1 version1 line1)
    heading2 version2 line2
  = insertBy cat1 (insertBy cat2 rs heading2 version2 line2)
      heading1 version1 line1.
Proof.
  intros D. rewrite !insertBy_map, !map_map. apply map_ext. intros r.
  destruct (String.eqb_spec (Name r) version1) as [E1|N1];
    destruct (String.eqb_spec (Name r) version2) as [E2|N2].
  - congruence.
  - rewrite (attach_other heading2 version2 line2 cat2 r N2).
    rewrite (attach_other heading2 version2 line2 cat2); [reflexivity|].
    now rewrite Name_attach.
  - rewrite (attach_other heading1 version1 line1 cat1 r N1).
    rewrite (attach_other heading1 version1 line1 cat1); [reflexivity|].
    now rewrite Name_attach.
  - now rewrite !(attach_other heading1 version1 line1 cat1 r N1),
      !(attach_other heading2 version2 line2 cat2 r N2),
      (attach_other heading1 version1 line1 cat1 r N1).
Qed.

Lemma insert_other_name_commutes_witness :
  let rs := [tag "v1.0.0"; tag "v2.0.0"] in
  "v1.0.0" <> "v2.0.0"
  /\ insertFeature (insertFix rs "one" "v1.0.0" "a") "two" "v2.0.0" "b"
     = insertFix (insertFeature rs "two" "v2.0.0" "b") "one" "v1.0.0" "a".
Proof.
  intros rs. assert (D : "v1.0.0" <> "v2.0.0") by discriminate.
  split; [exact D|].
  exact (insert_other_name_commutes CatFixes CatFeatures rs
           "one" "v1.0.0" "a" "two" "v2.0.0" "b" D).
Defined.

(** ** Invariants of the scan loop *)

Lemma fields_categoryHeading st line :
  release (categoryHeading st line) = release st
  /\ name (categoryHeading st line) = name st.
Proof.
  unfold categoryHeading. destruct (isCategoryHeading line); [|now split].
  repeat match goal with |- context [if ?c then _ else _] => destruct c end;
    now split.
Qed.

Lemma fields_bullet st line :
  release (bullet st line) = release st /\ name (bullet st line) = name st
  /\ fixes (bullet st line) = fixes st /\ features (bullet st line) = features st
  /\ maintenance (bullet st line) = maintenance st.
Proof. unfold bullet. now destruct (isBullet line). Qed.

(** The heading and the tag change on a release heading only. *)
Lemma heading_processLine st line :
  GoStrings.HasPrefix line "## " = false ->
  release (processLine st line) = release st
  /\ name (processLine st line) = name st.
Proof.
  intros H. destruct (startsBoundary line) eqn:B.
  - destruct (Regexp.MatchString (release st)) eqn:G.
    + rewrite processLine_open by assumption.
      destruct (fields_bullet (categoryHeading (flushed st) line) line)
        as (-> & -> & _).
      apply (fields_categoryHeading (flushed st)).
    + rewrite processLine_gated by assumption. now split.
  - apply startsBoundary_false in B. destruct B as [E | C].
    + unfold processLine. rewrite E. now split.
    + rewrite processLine_continuation by exact C. now split.
Qed.

Lemma tagged_processLine st line : tagged st -> tagged (processLine st line).
Proof.
  intros T. destruct (GoStrings.HasPrefix line "## ") eqn:H.
  - rewrite processLine_release by exact H. now right.
  - destruct (heading_processLine st line H) as [R N].
    unfold tagged. now rewrite R, N.
Qed.

Lemma flagsExclusive_categoryHeading st line :
  Regexp.MatchString (release st) = true ->
  flagsExclusive st ->
  flagsExclusive (categoryHeading st line).
Proof.
  intros G F. unfold categoryHeading. destruct (isCategoryHeading line); [|exact F].
  repeat match goal with |- context [if ?c then _ else _] => destruct c end;
    try exact G. exact F.
Qed.

Lemma flagsExclusive_processLine st line :
  flagsExclusive st -> flagsExclusive (processLine st line).
Proof.
  intros F. destruct (GoStrings.HasPrefix line "## ") eqn:H.
  - rewrite processLine_release by exact H. exact I.
  - destruct (startsBoundary line) eqn:B.
    + destruct (Regexp.MatchString (release st)) eqn:G.
      * rewrite processLine_open by assumption.
        destruct (fields_bullet (categoryHeading (flushed st) line) line)
          as (R & _ & F1 & F2 & F3).
        unfold flagsExclusive at 1. rewrite R, F1, F2, F3.
        now apply (flagsExclusive_categoryHeading (flushed st) line).
      * rewrite processLine_gated by assumption. exact F.
    + apply startsBoundary_false in B. destruct B as [E | C].
      * unfold processLine. now rewrite E.
      * rewrite processLine_continuation by exact C. exact F.
Qed.

Lemma fold_invariants texts : forall st,
  flagsExclusive st -> tagged st ->
  flagsExclusive (fold_left loopBody texts st)
  /\ tagged (fold_left loopBody texts st).
Proof.
  induction texts as [|t ts IH]; intros st F T; [now split|].
  simpl. apply IH; [now apply flagsExclusive_processLine
                   |now apply tagged_processLine].
Qed.

(** X4.  Whatever texts the loop has run over, from the start of
    [parseChangelog]: at most one of [fixes], [features] and [maintenance]
    is true, so the order of the [if] chain of the dispatch decides nothing;
    none is true while the release heading has no version; and [name] is the
    tag of [release], both empty before the first release heading and [name]
    being ["v"] with the first version of [release] after it. *)
Theorem loop_invariants (texts : list string) (rs : list Release) :
  let st := fold_left loopBody texts (initial rs) in
  flagsExclusive st
  /\ (Regexp.MatchString (release st) = false ->
      fixes st = false /\ features st = false /\ maintenance st = false)
  /\ tagged st.
Proof.
  intros st.
  destruct (fold_invariants texts (initial rs) I (or_introl (conj eq_refl eq_refl)))
    as [F T].
  fold st in F, T. split; [exact F|]. split; [|exact T].
  intros G. unfold flagsExclusive in F. rewrite G in F.
  destruct (fixes st), (features st), (maintenance st);
    try discriminate; try contradiction; now repeat split.
Qed.

(** ** What the dispatches leave in the store *)

Section Dispatches.

(** A relation between a release at the start and the same release later,
    and a property of the state, such that a dispatch in a state with the
    property keeps the relation. *)
Variable R : Release -> Release -> Prop.
Variable Inv : State -> Prop.

Hypothesis R_start : forall r, R r r.
Hypothesis R_dispatch : forall st r r1,
  Inv st -> comment st <> "" -> R r r1 ->
  R r (attach (activeCategory st) (release st) (name st) (comment st) r1).

Lemma flushComment_related st rs0 :
  Inv st -> Forall2 R rs0 (releases st) -> Forall2 R rs0 (flushComment st).
Proof.
  intros V H. rewrite flushComment_map.
  destruct (String.eqb_spec (comment st) "") as [|C]; [exact H|].
  induction H; simpl; constructor; auto.
Qed.

Lemma fold_related texts : forall st rs0,
  (forall t s, In t texts -> Inv s -> Inv (loopBody s t)) ->
  Inv st ->
  Forall2 R rs0 (releases st) ->
  Forall2 R rs0 (releases (fold_left loopBody texts st)).
Proof.
  induction texts as [|t ts IH]; intros st rs0 P V H; [exact H|].
  simpl. apply IH.
  - intros t' s Hin. apply P. now right.
  - apply P; [now left|exact V].
  - rewrite releases_loopBody. destruct (isBoundary t); [|exact H].
    now apply flushComment_related.
Qed.

Lemma parse_related texts rs :
  (forall t s, In t texts -> Inv s -> Inv (loopBody s t)) ->
  Inv (initial rs) ->
  Forall2 R rs (parseLines texts rs).
Proof.
  intros P V. apply fold_related; [exact P|exact V|].
  simpl. clear P V. induction rs; constructor; auto.
Qed.

End Dispatches.

Lemma Forall2_nth {A B} (P : A -> B -> Prop) l l' i a b :
  Forall2 P l l' -> nth_error l i = Some a -> nth_error l' i = Some b -> P a b.
Proof.
  intros H. revert i. induction H; intros [|i]; simpl; try discriminate.
  - now intros [= <-] [= <-].
  - apply IHForall2.
Qed.

Lemma writtenBy_dispatch st r r1 :
  tagged st -> comment st <> "" ->
  Name r1 = Name r /\ writtenBy r r1 ->
  Name (attach (activeCategory st) (release st) (name st) (comment st) r1) = Name r
  /\ writtenBy r (attach (activeCategory st) (release st) (name st) (comment st) r1).
Proof.
  intros T _ [N W]. rewrite Name_attach. split; [exact N|].
  unfold attach. destruct (String.eqb_spec (Name r1) (name st)) as [E|]; [|exact W].
  right. eexists. split; [reflexivity|].
  assert (V : Version (appendNote (activeCategory st) (release st) (name st)
                         (comment st) (notesOrZero r1)) = name st)
    by now destruct (activeCategory st).
  assert (H : ReleaseName (appendNote (activeCategory st) (release st) (name st)
                             (comment st) (notesOrZero r1)) = release st)
    by now destruct (activeCategory st).
  rewrite V, H, <- N, E. split; [reflexivity|].
  destruct T as [[Tr Tn] | Tn]; [left; now split|right; exact Tn].
Qed.

(** X5.  For every changelog and store, a release whose notes the parser has
    changed or created carries in them, as Version, its own name, and as
    ReleaseName a heading whose first version, behind ["v"], is that name:
    notes are never filed under a tag other than the one their heading gives.
    The one other case is the release with the empty name, which takes what
    stands before the first release heading, under an empty ReleaseName. *)
Theorem notes_filed_under_their_tag
  (changelog : string) (rs : list Release) (i : nat) (r r' : Release) :
  nth_error rs i = Some r ->
  nth_error (parseChangelog changelog rs) i = Some r' ->
  Release_ReleaseNotes r' <> Release_ReleaseNotes r ->
  exists n',
    Release_ReleaseNotes r' = Some n'
    /\ Version n' = Name r
    /\ ((Name r = "" /\ ReleaseName n' = "")
        \/ Name r = "v" ++ Regexp.FindString (ReleaseName n')).
Proof.
  intros H H' D.
  assert (F : Forall2 (fun r r' => Name r' = Name r /\ writtenBy r r')
                rs (parseChangelog changelog rs)).
  { apply (parse_related _ tagged).
    - intros r0. split; [reflexivity|now left].
    - apply writtenBy_dispatch.
    - intros t s _. apply tagged_processLine.
    - left. now split. }
  destruct (Forall2_nth _ _ _ _ _ _ F H H') as [_ [E | W]]; [contradiction|exact W].
Qed.

Lemma notes_filed_under_their_tag_witness :
  let changelog := "## jest 24.0.0" ++ nl ++ "* fixed" ++ nl ++ "## jest 23.6.0" in
  let rs := [tag "v23.6.0"; tag "v24.0.0"] in
  let r := tag "v24.0.0" in
  let r' := mkRelease "v24.0.0" "" "" (mkCommit "" "")
              (Some (mkReleaseNotes "jest 24.0.0" "v24.0.0" [] [] [] ["fixed"])) in
  nth_error rs 1 = Some r
  /\ nth_error (parseChangelog changelog rs) 1 = Some r'
  /\ Release_ReleaseNotes r' <> Release_ReleaseNotes r
  /\ exists n',
       Release_ReleaseNotes r' = Some n'
       /\ Version n' = Name r
       /\ ((Name r = "" /\ ReleaseName n' = "")
           \/ Name r = "v" ++ Regexp.FindString (ReleaseName n')).
Proof.
  intros changelog rs r r'.
  assert (H' : nth_error (parseChangelog changelog rs) 1 = Some r') by reflexivity.
  assert (D : Release_ReleaseNotes r' <> Release_ReleaseNotes r) by discriminate.
  split; [reflexivity|]. split; [exact H'|]. split; [exact D|].
  exact (notes_filed_under_their_tag changelog rs 1 r r' eq_refl H' D).
Defined.

Lemma grownBy_entries r r1 cat :
  grownBy r r1 ->
  exists added,
    entries cat (notesOrZero r1) = (entries cat (notesOrZero r) ++ added)%list
    /\ Forall (fun e => e <> "") added.
Proof.
  intros [E | (n1 & E & H & _)].
  - exists []. unfold notesOrZero. rewrite E, List.app_nil_r. now split.
  - unfold notesOrZero at 1. rewrite E. apply H.
Qed.

Lemma grownBy_dispatch st r r1 :
  True -> comment st <> "" -> grownBy r r1 ->
  grownBy r (attach (activeCategory st) (release st) (name st) (comment st) r1).
Proof.
  intros _ C G. unfold attach. destruct (Name r1 =? name st); [|exact G].
  right. eexists. split; [reflexivity|]. split.
  - intros cat. destruct (grownBy_entries r r1 cat G) as (added & E & F).
    rewrite entries_appendNote, E, <- List.app_assoc.
    eexists. split; [reflexivity|]. apply Forall_app. split; [exact F|].
    destruct (sameCategory cat (activeCategory st)); repeat constructor. exact C.
  - exists (activeCategory st).
    destruct (grownBy_entries r r1 (activeCategory st) G) as (added & E & _).
    rewrite entries_appendNote, E, !List.length_app.
    replace (sameCategory (activeCategory st) (activeCategory st)) with true
      by now destruct (activeCategory st).
    simpl. lia.
Qed.

(** X6.  For every changelog and store, what the parser adds to the notes of
    a release is made of entries that are not empty, added at the end of the
    sequences; and it gives notes to a release, or changes them, only with
    at least one entry added: no release ends with notes created empty. *)
Theorem parser_adds_nonempty_entries
  (changelog : string) (rs : list Release) (i : nat) (r r' : Release) :
  nth_error rs i = Some r ->
  nth_error (parseChangelog changelog rs) i = Some r' ->
  (forall cat, exists added,
     entries cat (notesOrZero r') = (entries cat (notesOrZero r) ++ added)%list
     /\ Forall (fun e => e <> "") added)
  /\ (Release_ReleaseNotes r' <> Release_ReleaseNotes r ->
      exists cat, List.length (entries cat (notesOrZero r))
                  < List.length (entries cat (notesOrZero r'))).
Proof.
  intros H H'.
  assert (F : Forall2 grownBy rs (parseChangelog changelog rs)).
  { apply (parse_related _ (fun _ => True)); auto using grownBy_dispatch.
    now left. }
  pose proof (Forall2_nth _ _ _ _ _ _ F H H') as G. split.
  - intros cat. now apply grownBy_entries.
  - intros D. destruct G as [E | (n' & E & _ & cat & L)]; [contradiction|].
    exists cat. unfold notesOrZero at 2. now rewrite E.
Qed.

Lemma parser_adds_nonempty_entries_witness :
  let changelog := "## jest 24.0.0" ++ nl ++ "* fixed" ++ nl ++ "## jest 23.6.0" in
  let rs := [tag "v23.6.0"; tag "v24.0.0"] in
  let r := tag "v24.0.0" in
  let r' := mkRelease "v24.0.0" "" "" (mkCommit "" "")
              (Some (mkReleaseNotes "jest 24.0.0" "v24.0.0" [] [] [] ["fixed"])) in
  nth_error rs 1 = Some r
  /\ nth_error (parseChangelog changelog rs) 1 = Some r'
  /\ forall cat, exists added,
       entries cat (notesOrZero r') = (entries cat (notesOrZero r) ++ added)%list
       /\ Forall (fun e => e <> "") added.
Proof.
  intros changelog rs r r'.
  assert (H' : nth_error (parseChangelog changelog rs) 1 = Some r') by reflexivity.
  split; [reflexivity|]. split; [exact H'|].
  exact (proj1 (parser_adds_nonempty_entries changelog rs 1 r r' eq_refl H')).
Defined.

(** ** Releases the changelog does not name *)

Lemma Forall2_nth_left {A B} (P : A -> B -> Prop) l l' i a :
  Forall2 P l l' -> nth_error l i = Some a ->
  exists b, nth_error l' i = Some b /\ P a b.
Proof.
  intros H. revert i. induction H; intros [|i]; simpl; try discriminate.
  - intros [= <-]. eauto.
  - apply IHForall2.
Qed.

Lemma name_loopBody st text :
  name (loopBody st text) = name st
  \/ (isReleaseHeading (GoStrings.TrimRight text cutset) = true
      /\ name (loopBody st text) = headingTag text).
Proof.
  unfold loopBody. rewrite isReleaseHeading_HasPrefix.
  destruct (GoStrings.HasPrefix (GoStrings.TrimRight text cutset) "## ") eqn:H.
  - right. split; [reflexivity|]. now rewrite processLine_release.
  - left. now apply heading_processLine.
Qed.

Lemma tagsIn_loopBody texts t s :
  In t texts -> In (name s) (tagsIn texts) -> In (name (loopBody s t)) (tagsIn texts).
Proof.
  intros Hin Hs. destruct (name_loopBody s t) as [-> | [Hh ->]]; [exact Hs|].
  right. apply in_map. apply filter_In. now split.
Qed.

(** X7.  For every changelog and store, a release whose name is neither
    empty nor the tag of a release heading of the changelog (["v"] and the
    first version of the heading) is returned as it was: an entry whose
    version has no release of that name is dropped, and never touches
    another release. *)
Theorem unnamed_release_untouched
  (changelog : string) (rs : list Release) (i : nat) (r : Release) :
  nth_error rs i = Some r ->
  ~ In (Name r) (tagsIn (Bufio.scanTexts changelog)) ->
  nth_error (parseChangelog changelog rs) i = Some r.
Proof.
  intros H N. set (texts := Bufio.scanTexts changelog) in *.
  assert (F : Forall2 (fun r r' => Name r' = Name r
                                   /\ (~ In (Name r) (tagsIn texts) -> r' = r))
                rs (parseChangelog changelog rs)).
  { apply (parse_related _ (fun s => In (name s) (tagsIn texts))).
    - intros r0. now split.
    - intros st r0 r1 V _ [E K]. rewrite Name_attach. split; [exact E|].
      intros A. rewrite (K A). apply attach_other. intros Q. apply A.
      now rewrite Q.
    - intros t s Hin. now apply tagsIn_loopBody.
    - now left. }
  destruct (Forall2_nth_left _ _ _ _ _ F H) as (r' & H' & _ & K).
  now rewrite H', (K N).
Qed.

Lemma unnamed_release_untouched_witness :
  let changelog := "## jest 24.0.0" ++ nl ++ "* fixed" ++ nl ++ "## jest 23.6.0" in
  let rs := [tag "v23.6.0"; tag "v24.0.0"; tag "v22.4.4"] in
  nth_error rs 2 = Some (tag "v22.4.4")
  /\ ~ In "v22.4.4" (tagsIn (Bufio.scanTexts changelog))
  /\ nth_error (parseChangelog changelog rs) 2 = Some (tag "v22.4.4").
Proof.
  intros changelog rs.
  assert (N : ~ In (Name (tag "v22.4.4")) (tagsIn (Bufio.scanTexts changelog)))
    by (intros [A | [A | [A | []]]]; discriminate A).
  split; [reflexivity|]. split; [exact N|].
  exact (unnamed_release_untouched changelog rs 2 (tag "v22.4.4") eq_refl N).
Defined.

Lemma name_v st : tagged st -> name st = "" \/ GoStrings.HasPrefix (name st) "v" = true.
Proof. intros [[_ E] | E]; [now left|right; now rewrite E]. Qed.

(** X8.  A store in which every name is non-empty and begins with another
    byte than ['v'] is returned as it was by every changelog: the tag the
    parser looks up always begins with ["v"]. *)
Theorem store_without_v_tags_unchanged (changelog : string) (rs : list Release) :
  (forall r, In r rs ->
     Name r <> "" /\ GoStrings.HasPrefix (Name r) "v" = false) ->
  parseChangelog changelog rs = rs.
Proof.
  intros H.
  assert (F : Forall2 (fun r r' => Name r <> "" ->
                         GoStrings.HasPrefix (Name r) "v" = false -> r' = r)
                rs (parseChangelog changelog rs)).
  { apply (parse_related _ tagged).
    - reflexivity.
    - intros st r0 r1 T _ K A B. rewrite (K A B). apply attach_other.
      intros Q. destruct (name_v st T) as [E | E]; congruence.
    - intros t s _. apply tagged_processLine.
    - left. now split. }
  revert H. induction F as [|r r' rs rs' K F IH]; intros H; [reflexivity|].
  destruct (H r (or_introl eq_refl)) as [A B]. rewrite (K A B). f_equal.
  apply IH. intros r0 Hin. apply H. now right.
Qed.

Lemma store_without_v_tags_unchanged_witness :
  let changelog := "## jest 24.0.0" ++ nl ++ "* fixed" ++ nl ++ "## jest 23.6.0" in
  let rs := [tag "24.0.0"; tag "23.6.0"] in
  (forall r, In r rs ->
     Name r <> "" /\ GoStrings.HasPrefix (Name r) "v" = false)
  /\ parseChangelog changelog rs = rs.
Proof.
  intros changelog rs.
  assert (H : forall r, In r rs ->
            Name r <> "" /\ GoStrings.HasPrefix (Name r) "v" = false)
    by (intros r [<- | [<- | []]]; split; (discriminate || reflexivity)).
  split; [exact H|]. exact (store_without_v_tags_unchanged changelog rs H).
Defined.

(** ** Texts that start no heading and no bullet *)

Lemma loopBody_other st text :
  isBoundary text = false ->
  loopBody st text
  = mkState (release st) (name st) (joinLine (comment st) text)
            (fixes st) (features st) (maintenance st) (releases st).
Proof.
  unfold isBoundary, loopBody, joinLine. intros B.
  destruct (GoStrings.TrimRight text cutset) as [|c l] eqn:E.
  - now rewrite processLine_blank, state_eta.
  - apply startsBoundary_false in B. destruct B as [B | B]; [discriminate B|].
    now rewrite processLine_continuation.
Qed.

Lemma fold_other texts : forall st,
  Forall (fun t => isBoundary t = false) texts ->
  fold_left loopBody texts st
  = mkState (release st) (name st) (fold_left joinLine texts (comment st))
            (fixes st) (features st) (maintenance st) (releases st).
Proof.
  induction texts as [|t ts IH]; intros st H; [symmetry; apply state_eta|].
  inversion H; subst. simpl. rewrite loopBody_other by assumption.
  now rewrite IH.
Qed.

(** X9.  Texts of which none starts, once trimmed, with ['#'] or ['*'] only
    feed the comment buffer: the blank ones are skipped and each other one
    is joined on, trimmed, behind a newline; the heading, the tag, the
    category and the store stay as they are.  So a changelog without a
    heading or bullet line leaves every store as it was. *)
Theorem plain_texts_only_buffer (texts : list string) (st : State) :
  Forall (fun t => isBoundary t = false) texts ->
  fold_left loopBody texts st
  = mkState (release st) (name st) (fold_left joinLine texts (comment st))
            (fixes st) (features st) (maintenance st) (releases st)
  /\ forall rs, parseLines texts rs = rs.
Proof.
  intros H. split; [now apply fold_other|].
  intros rs. unfold parseLines. now rewrite fold_other.
Qed.

Lemma plain_texts_only_buffer_witness :
  let st := mkState "jest 24.0.0" "v24.0.0" "fixed" true false false [tag ""] in
  let texts := ["  the thing  "; "   "; "  twice"] in
  Forall (fun t => isBoundary t = false) texts
  /\ comment (fold_left loopBody texts st) = "fixed" ++ nl ++ "the thing" ++ nl ++ "twice"
  /\ parseLines texts [tag ""] = [tag ""].
Proof.
  intros st texts.
  assert (H : Forall (fun t => isBoundary t = false) texts)
    by (repeat constructor).
  destruct (plain_texts_only_buffer texts st H) as [E P].
  split; [exact H|]. split; [now rewrite E|apply P].
Defined.

(** ** Trailing white space *)

Lemma TrimRight_allCutset w :
  allCutset w = true -> GoStrings.TrimRight w cutset = "".
Proof.
  induction w as [|c w IH]; [reflexivity|]. cbn [allCutset GoStrings.TrimRight].
  intros H. apply andb_true_iff in H. destruct H as [-> H]. now rewrite IH.
Qed.

Lemma TrimRight_pad t w :
  allCutset w = true ->
  GoStrings.TrimRight (t ++ w) cutset = GoStrings.TrimRight t cutset.
Proof.
  intros H. induction t as [|c t IH]; [now apply TrimRight_allCutset|].
  cbn [append GoStrings.TrimRight]. now rewrite IH.
Qed.

(** X10.  White space at the end of a text, any run of the bytes of the
    cutset, changes nothing of what the loop body does with it, and a text
    of white space only is skipped; so two changelogs whose texts differ by
    such endings leave the same store. *)
Theorem trailing_space_ignored (texts texts' : list string) :
  Forall2 (fun t t' => exists w, allCutset w = true /\ t' = t ++ w) texts texts' ->
  (forall st, fold_left loopBody texts' st = fold_left loopBody texts st)
  /\ (forall rs, parseLines texts' rs = parseLines texts rs)
  /\ (forall st w, allCutset w = true -> loopBody st w = st).
Proof.
  intros H.
  assert (F : forall st, fold_left loopBody texts' st = fold_left loopBody texts st).
  { induction H as [|t t' ts ts' (w & W & ->) _ IH]; intros st; [reflexivity|].
    simpl. unfold loopBody at 2 4. rewrite TrimRight_pad by exact W. apply IH. }
  split; [exact F|]. split.
  - intros rs. unfold parseLines. now rewrite F.
  - intros st w W. unfold loopBody. now rewrite TrimRight_allCutset.
Qed.

Lemma trailing_space_ignored_witness :
  let cr := String Bufio.carriageReturn "" in
  let texts := ["## jest 24.0.0"; "* fixed"; "## jest 23.6.0"] in
  let texts' := ["## jest 24.0.0" ++ cr; "* fixed" ++ "  " ++ cr; "## jest 23.6.0"] in
  Forall2 (fun t t' => exists w, allCutset w = true /\ t' = t ++ w) texts texts'
  /\ parseLines texts' [tag "v24.0.0"] = parseLines texts [tag "v24.0.0"].
Proof.
  intros cr texts texts'.
  assert (H : Forall2 (fun t t' => exists w, allCutset w = true /\ t' = t ++ w)
                texts texts').
  { constructor; [exists cr; now split|].
    constructor; [exists ("  " ++ cr); now split|].
    constructor; [exists ""; now split|constructor]. }
  split; [exact H|].
  exact (proj1 (proj2 (trailing_space_ignored texts texts' H)) [tag "v24.0.0"]).
Defined.

(** ** Under a heading without a version *)

Lemma flushed_empty st : comment st = "" -> flushed st = st.
Proof.
  intros C. unfold flushed, flushComment.
  destruct st as [r n c f1 f2 f3 rs]. simpl in *. now subst c.
Qed.

(** X11.  Under a release heading without a version, and before the first
    release heading, bullets and category headings are dropped: from a state
    with an empty buffer, texts that each start, once trimmed, with ['#'] or
    ['*'], none of them a release heading, leave the state, the store with
    it, exactly as it was. *)
Theorem section_without_version_is_skipped (texts : list string) (st : State) :
  Regexp.MatchString (release st) = false ->
  comment st = "" ->
  Forall (fun t => isBoundary t = true
                   /\ GoStrings.HasPrefix (GoStrings.TrimRight t cutset) "## "
                      = false) texts ->
  fold_left loopBody texts st = st.
Proof.
  intros G C H. induction H as [|t ts [B N] _ IH]; [reflexivity|].
  simpl. unfold loopBody at 2.
  rewrite processLine_gated, flushed_empty by assumption. exact IH.
Qed.

Lemma section_without_version_is_skipped_witness :
  let st := fold_left loopBody ["## master"] (initial [tag "v"; tag ""]) in
  let texts := ["### Fixes"; "* not yet released"; "* another"; "### Features"] in
  Regexp.MatchString (release st) = false
  /\ comment st = ""
  /\ fold_left loopBody (texts ++ ["## jest 24.0.0"]) st
     = fold_left loopBody ["## jest 24.0.0"] st.
Proof.
  intros st texts. do 2 (split; [reflexivity|]).
  rewrite fold_left_app.
  rewrite (section_without_version_is_skipped texts st eq_refl eq_refl);
    [reflexivity|].
  repeat constructor.
Defined.

(** ** A run of bullets *)

Lemma TrimRight_stable p t :
  t <> "" -> GoStrings.TrimRight t cutset = t ->
  GoStrings.TrimRight (p ++ t) cutset = p ++ t.
Proof.
  intros N E. induction p as [|c p IH]; [exact E|].
  cbn [append GoStrings.TrimRight]. rewrite IH.
  destruct (p ++ t) eqn:A; [|reflexivity].
  destruct p; [simpl in A; contradiction|discriminate A].
Qed.

Lemma loopBody_bulletLine st t :
  Regexp.MatchString (release st) = true ->
  clean t ->
  loopBody st (bulletLine t)
  = mkState (release st) (name st) t
            (fixes st) (features st) (maintenance st) (flushComment st).
Proof.
  intros G [N E]. unfold loopBody, bulletLine.
  rewrite TrimRight_stable by assumption.
  now rewrite processLine_bullet.
Qed.

Lemma flushComment_insertBy st :
  comment st <> "" ->
  flushComment st
  = insertBy (activeCategory st) (releases st) (release st) (name st) (comment st).
Proof.
  intros C. rewrite flushComment_map, insertBy_map.
  now destruct (String.eqb_spec (comment st) "").
Qed.

Lemma fold_bullets items : forall st,
  Regexp.MatchString (release st) = true ->
  Forall clean items ->
  let st' := fold_left loopBody (map bulletLine items) st in
  release st' = release st /\ name st' = name st
  /\ activeCategory st' = activeCategory st
  /\ flushComment st'
     = fold_left (fun rs t => insertBy (activeCategory st) rs (release st) (name st) t)
         items (flushComment st).
Proof.
  induction items as [|t ts IH]; intros st G H; [now repeat split|].
  inversion H as [|? ? Ct Cts]; subst. cbn [map fold_left].
  rewrite loopBody_bulletLine by assumption.
  set (st1 := mkState _ _ _ _ _ _ _).
  destruct (IH st1 G Cts) as (R & N & A & F).
  split; [exact R|]. split; [exact N|]. split; [exact A|].
  rewrite F. f_equal. apply flushComment_insertBy. apply Ct.
Qed.

Lemma fold_insertBy_nth cat heading version items : forall rs i r,
  items <> [] ->
  nth_error rs i = Some r ->
  nth_error (fold_left (fun rs t => insertBy cat rs heading version t) items rs) i
  = Some (if Name r =? version then
            withNotes r (appendNotes cat heading version items (notesOrZero r))
          else r).
Proof.
  induction items as [|t ts IH]; intros rs i r N H; [contradiction|].
  cbn [fold_left]. destruct ts as [|t2 ts].
  - cbn [fold_left]. rewrite insertBy_map, nth_error_map, H. cbn [option_map].
    unfold attach. destruct (Name r =? version); [|reflexivity].
    now destruct cat.
  - rewrite (IH _ i (attach cat heading version t r)); [|discriminate|].
    + rewrite Name_attach. unfold attach.
      destruct (Name r =? version); [|reflexivity].
      destruct cat; cbn; now rewrite <- List.app_assoc.
    + now rewrite insertBy_map, nth_error_map, H.
Qed.

(** X12.  Bullets are kept in the order of the document.  Under a release
    heading with a version, from an empty buffer, a run of bullet lines and
    a next heading or bullet line give every release that carries the tag
    the texts of the bullets, in their order, at the end of the sequence of
    the active category, with the heading as ReleaseName and the tag as
    Version; the other releases stay as they are. *)
Theorem bullets_in_document_order
  (st : State) (items : list string) (closing : string) (i : nat) (r : Release) :
  Regexp.MatchString (release st) = true ->
  comment st = "" ->
  Forall clean items ->
  items <> [] ->
  isBoundary closing = true ->
  nth_error (releases st) i = Some r ->
  nth_error
    (releases (fold_left loopBody (map bulletLine items ++ [closing]) st)) i
  = Some (if Name r =? name st then
            withNotes r (appendNotes (activeCategory st) (release st) (name st)
                           items (notesOrZero r))
          else r).
Proof.
  intros G C Hc Hn B H.
  rewrite fold_left_snoc, releases_loopBody, B.
  destruct (fold_bullets items st G Hc) as (_ & _ & _ & F). rewrite F.
  apply fold_insertBy_nth; [exact Hn|].
  unfold flushComment. now rewrite C.
Qed.

Lemma bullets_in_document_order_witness :
  let st := fold_left loopBody ["## jest 24.0.0"; "### Features"]
              (initial [tag "v23.6.0"; tag "v24.0.0"]) in
  let items := ["first"; "second"; "third"] in
  Regexp.MatchString (release st) = true /\ comment st = ""
  /\ Forall clean items /\ items <> []
  /\ isBoundary "## jest 23.6.0" = true
  /\ nth_error (releases st) 1 = Some (tag "v24.0.0")
  /\ nth_error
       (releases (fold_left loopBody (map bulletLine items ++ ["## jest 23.6.0"]) st)) 1
     = Some (mkRelease "v24.0.0" "" "" (mkCommit "" "")
               (Some (mkReleaseNotes "jest 24.0.0" "v24.0.0" []
                        ["first"; "second"; "third"] [] []))).
Proof.
  intros st items.
  assert (Hc : Forall clean items)
    by (repeat constructor; discriminate).
  assert (Hn : items <> []) by discriminate.
  do 2 (split; [reflexivity|]). split; [exact Hc|]. split; [exact Hn|].
  do 2 (split; [reflexivity|]).
  exact (bullets_in_document_order st items "## jest 23.6.0" 1 (tag "v24.0.0")
           eq_refl eq_refl Hc Hn eq_refl eq_refl).
Defined.

(** ** The scanner gives back the lines of a text *)

Lemma splitLines_line l : forall cur rest,
  oneLine l = true ->
  Bufio.splitLines cur (l ++ nl ++ rest)
  = (cur ++ l) :: Bufio.splitLines "" rest.
Proof.
  induction l as [|c l IH]; intros cur rest H.
  - simpl. now rewrite RegexpFacts.append_nil_r.
  - simpl in H. apply andb_true_iff in H. destruct H as [N H].
    apply negb_true_iff in N. cbn [append Bufio.splitLines].
    rewrite N, IH by exact H. now rewrite RegexpFacts.append_assoc.
Qed.

Lemma takeFitting_all ls :
  Forall scannable ls -> map Bufio.dropCR (Bufio.takeFitting ls) = ls.
Proof.
  induction 1 as [|l ls (_ & F & D) _ IH]; [reflexivity|].
  simpl. rewrite F. simpl. now rewrite D, IH.
Qed.

Lemma splitLines_terminated ls :
  Forall scannable ls ->
  Bufio.splitLines "" (String.concat "" (map (fun l => l ++ nl) ls)) = ls.
Proof.
  induction 1 as [|l ls (O & _) _ IH]; [reflexivity|].
  cbn [map]. rewrite Utf8Facts.concat_cons, RegexpFacts.append_assoc.
  now rewrite splitLines_line, IH.
Qed.

Lemma splitLines_separated ls :
  Forall scannable ls ->
  last ls "." <> "" ->
  Bufio.splitLines "" (String.concat nl ls) = ls.
Proof.
  induction 1 as [|l ls (O & _) Hs IH]; intros L; [reflexivity|].
  destruct ls as [|l2 ls].
  - cbn [String.concat]. rewrite splitLines_last by exact O.
    simpl in L |- *. now destruct l.
  - rewrite JsonFacts.concat_cons2, splitLines_line by exact O.
    now rewrite IH.
Qed.

(** X13.  The scan loop sees the lines of the changelog.  For lines without
    a newline in them or a carriage return at their end, each shorter than
    the buffer of the scanner, the texts scanned from the lines written one
    after the other, each ended by a newline, are these lines; the same
    holds with the newline of the last line left out, unless that line is
    empty, which the scanner then does not see. *)
Theorem scanner_gives_lines (ls : list string) :
  Forall scannable ls ->
  Bufio.scanTexts (String.concat "" (map (fun l => l ++ nl) ls)) = ls
  /\ (last ls "." <> "" -> Bufio.scanTexts (String.concat nl ls) = ls)
  /\ Bufio.scanTexts (String.concat nl (ls ++ [""])) = ls.
Proof.
  intros H. unfold Bufio.scanTexts. split; [|split].
  - rewrite splitLines_terminated by exact H. now apply takeFitting_all.
  - intros L. rewrite splitLines_separated by assumption. now apply takeFitting_all.
  - replace (String.concat nl (ls ++ [""]))
      with (String.concat "" (map (fun l => l ++ nl) ls)).
    + rewrite splitLines_terminated by exact H. now apply takeFitting_all.
    + clear H. induction ls as [|l ls IH]; [reflexivity|].
      cbn [map app]. rewrite Utf8Facts.concat_cons, IH.
      destruct ls; [simpl; now rewrite !RegexpFacts.append_nil_r|].
      cbn [app]. rewrite JsonFacts.concat_cons2.
      now rewrite RegexpFacts.append_assoc.
Qed.

Lemma scanner_gives_lines_witness :
  let ls := ["## jest 24.0.0"; ""; "* fixed"] in
  Forall scannable ls
  /\ Bufio.scanTexts ("## jest 24.0.0" ++ nl ++ nl ++ "* fixed" ++ nl) = ls.
Proof.
  intros ls.
  assert (H : Forall scannable ls) by (repeat constructor).
  split; [exact H|]. exact (proj1 (scanner_gives_lines ls H)).
Defined.

(** ** [main] and [dump] *)

Lemma parseChangelog_nil changelog : parseChangelog changelog [] = [].
Proof.
  pose proof (fold_loopBody_sameTag (Bufio.scanTexts changelog) (initial [])) as H.
  simpl in H. unfold parseChangelog, parseLines. now inversion H.
Qed.

(** X14.  When [main] reaches [ioutil.WriteFile], both fetches have
    succeeded and the tag document has been decoded, and the bytes it writes
    are a JSON document that [json.Unmarshal] reads back as the store the
    parser left, strings coerced to UTF-8: one release for each tag of the
    tag list, in its order, with the name, URLs and commit the tag list
    gave.  Whenever the fetches succeed and the tags decode, it does reach
    the write. *)
Theorem main_writes_readable_store (wget : string -> option string) :
  (forall out, main wget = Some out ->
     exists tags changelog rs,
       wget tagsURL = Some tags /\ wget changelogURL = Some changelog
       /\ Json.Unmarshal tags = Some rs
       /\ Json.Unmarshal out
          = Some (map coerceRelease (parseChangelog changelog rs))
       /\ List.length (parseChangelog changelog rs) = List.length rs
       /\ Forall2 sameTag rs (parseChangelog changelog rs))
  /\ (forall tags changelog rs,
        wget tagsURL = Some tags -> wget changelogURL = Some changelog ->
        Json.Unmarshal tags = Some rs ->
        main wget <> None).
Proof.
  split.
  - intros out. unfold main.
    destruct (wget tagsURL) as [tags|]; [|discriminate].
    destruct (Json.parse tags) as [doc|] eqn:P; [|discriminate].
    destruct (Json.decode doc) as [rs|] eqn:D; [|discriminate].
    destruct (wget changelogURL) as [changelog|]; [|discriminate].
    intros E. exists tags, changelog, rs.
    assert (U : Json.Unmarshal tags = Some rs)
      by (unfold Json.Unmarshal; now rewrite P).
    assert (S : Forall2 sameTag rs (parseChangelog changelog rs))
      by apply (fold_loopBody_sameTag (Bufio.scanTexts changelog) (initial rs)).
    do 3 (split; [reflexivity || exact U|]).
    split; [|split; [symmetry; eapply Forall2_length, S|exact S]].
    destruct doc; injection E as <-;
      try apply JsonFacts.Unmarshal_Marshal.
    injection D as <-. now rewrite parseChangelog_nil.
  - intros tags changelog rs T C U. unfold main, Json.Unmarshal in *.
    rewrite T, C. destruct (Json.parse tags) as [doc|]; [|discriminate].
    rewrite U. now destruct doc.
Qed.

Lemma main_writes_readable_store_witness :
  let q := String Json.quoteMark "" in
  let tags := "[{" ++ q ++ "name" ++ q ++ ":" ++ q ++ "v24.0.0" ++ q ++ ","
              ++ q ++ "node_id" ++ q ++ ":7}]" in
  let changelog := "## jest 24.0.0" ++ nl ++ "* fixed" ++ nl ++ "## jest 23.6.0" in
  let wget url := if url =? tagsURL then Some tags
                  else if url =? changelogURL then Some changelog else None in
  let store := [mkRelease "v24.0.0" "" "" (mkCommit "" "")
                  (Some (mkReleaseNotes "jest 24.0.0" "v24.0.0" [] [] [] ["fixed"]))] in
  main wget = Some (Json.Marshal store)
  /\ Json.Unmarshal (Json.Marshal store) = Some store.
Proof.
  intros q tags changelog wget store.
  assert (E : main wget = Some (Json.Marshal store)) by (vm_compute; reflexivity).
  split; [exact E|].
  destruct (proj1 (main_writes_readable_store wget) _ E)
    as (tags' & changelog' & rs & T & C & U & R & _).
  rewrite R. vm_compute in T, C. injection T as <-. injection C as <-.
  vm_compute in U. injection U as <-. vm_compute. reflexivity.
Defined.

(** X15.  [dump] on a release of the store the parser returns panics, on
    the nil pointer to its notes, exactly when the release had no notes and
    the parser has left it as it was; on every release that had notes or was
    given some it returns. *)
Theorem dump_panics_on_untouched
  (changelog : string) (rs : list Release) (i : nat) (r r' : Release) :
  nth_error rs i = Some r ->
  nth_error (parseChangelog changelog rs) i = Some r' ->
  ((exists out, dump r' = Panicked out)
   <-> (Release_ReleaseNotes r = None /\ r' = r))
  /\ ((exists out, dump r' = Returned out)
      <-> Release_ReleaseNotes r' <> None).
Proof.
  intros H H'.
  pose proof (fold_loopBody_sameTag (Bufio.scanTexts changelog) (initial rs)) as F.
  destruct (Forall2_nth _ _ _ _ _ _ F H H') as (N & Z & T & C & E).
  split; split.
  - intros [out D]. unfold dump in D.
    destruct (Release_ReleaseNotes r') as [n'|] eqn:E'; [discriminate|].
    destruct (Release_ReleaseNotes r) as [n|] eqn:En; [contradiction|].
    split; [reflexivity|].
    destruct r, r'; simpl in *. congruence.
  - intros [En ->]. unfold dump. rewrite En. eauto.
  - intros [out D] Q. unfold dump in D. rewrite Q in D. discriminate.
  - intros Q. unfold dump. destruct (Release_ReleaseNotes r'); [eauto|contradiction].
Qed.

Lemma dump_panics_on_untouched_witness :
  let changelog := "## jest 24.0.0" ++ nl ++ "* fixed" ++ nl ++ "## jest 23.6.0" in
  let rs := [tag "v24.0.0"; tag "v23.6.0"] in
  let r := tag "v23.6.0" in
  nth_error rs 1 = Some r
  /\ nth_error (parseChangelog changelog rs) 1 = Some r
  /\ exists out, dump r = Panicked out.
Proof.
  intros changelog rs r.
  assert (H' : nth_error (parseChangelog changelog rs) 1 = Some r) by reflexivity.
  split; [reflexivity|]. split; [exact H'|].
  apply (proj1 (dump_panics_on_untouched changelog rs 1 r r eq_refl H')).
  now split.
Defined.

(** ** The version pattern and the written document *)

(** X16.  [validVersion.MatchString] holds of a text exactly when a version,
    three non-empty runs of digits with a dot between them, occurs in it
    somewhere; this is the test that opens a release section to category
    headings and bullets. *)
Theorem MatchString_iff_version_occurs (s : string) :
  Regexp.MatchString s = true
  <-> exists i m, IsVersion m /\ OccursAt s i m.
Proof.
  unfold Regexp.MatchString. pose proof (RegexpFacts.Find_spec s) as S.
  destruct (Regexp.Find s) as [m|]; split.
  - intros _. destruct S as (i & V & O & _). now exists i, m.
  - reflexivity.
  - discriminate.
  - intros (i & m & V & O). exfalso. exact (S i m V O).
Qed.

(** X17.  Two stores of valid UTF-8 strings for which [json.Marshal] writes
    the same bytes are the same store: no two fields share a key, and a field
    left out by [omitempty] can only have been empty. *)
Theorem Marshal_injective (rs1 rs2 : list Release) :
  validStore rs1 = true -> validStore rs2 = true ->
  Json.Marshal rs1 = Json.Marshal rs2 ->
  rs1 = rs2.
Proof.
  intros V1 V2 E.
  pose proof (JsonFacts.Unmarshal_Marshal rs1) as U1.
  pose proof (JsonFacts.Unmarshal_Marshal rs2) as U2.
  rewrite JsonFacts.coerce_validStore in U1, U2 by assumption.
  rewrite E in U1. congruence.
Qed.

Lemma Marshal_injective_witness :
  let rs := [tag "v24.0.0"] in
  validStore rs = true /\ validStore rs = true
  /\ Json.Marshal rs = Json.Marshal rs /\ rs = rs.
Proof.
  intros rs. do 3 (split; [reflexivity|]).
  exact (Marshal_injective rs rs eq_refl eq_refl eq_refl).
Defined.

(** ** A line too long for the scanner *)

Lemma splitLines_terminated_app ls rest :
  Forall scannable ls ->
  Bufio.splitLines "" (String.concat "" (map (fun l => l ++ nl) ls) ++ rest)
  = (ls ++ Bufio.splitLines "" rest)%list.
Proof.
  induction 1 as [|l ls (O & _) _ IH]; [reflexivity|].
  cbn [map]. rewrite Utf8Facts.concat_cons, !RegexpFacts.append_assoc.
  now rewrite splitLines_line, IH.
Qed.

Lemma takeFitting_stop ls long more :
  Forall scannable ls -> Bufio.fits long = false ->
  map Bufio.dropCR (Bufio.takeFitting (ls ++ long :: more)) = ls.
Proof.
  intros H L. induction H as [|l ls (_ & F & D) _ IH]; simpl.
  - now rewrite L.
  - rewrite F. simpl. now rewrite D, IH.
Qed.

(** X18.  A line of [bufio.MaxScanTokenSize] bytes or more ends the scan
    loop without a word: [parseChangelog] does not look at [scanner.Err],
    so the changelog is parsed as if it ended before that line, and what
    follows the line is never read. *)
Theorem long_line_ends_the_parse
  (ls : list string) (long rest : string) (rs : list Release) :
  Forall scannable ls ->
  oneLine long = true ->
  Bufio.fits long = false ->
  let before := String.concat "" (map (fun l => l ++ nl) ls) in
  Bufio.scanTexts (before ++ long ++ nl ++ rest) = ls
  /\ parseChangelog (before ++ long ++ nl ++ rest) rs = parseChangelog before rs
  /\ parseChangelog (before ++ long) rs = parseChangelog before rs.
Proof.
  intros H O L before.
  assert (B : Bufio.scanTexts before = ls).
  { unfold Bufio.scanTexts, before.
    rewrite splitLines_terminated by exact H. now apply takeFitting_all. }
  assert (E1 : Bufio.scanTexts (before ++ long ++ nl ++ rest) = ls).
  { unfold Bufio.scanTexts, before.
    rewrite splitLines_terminated_app, splitLines_line by assumption.
    now apply takeFitting_stop. }
  assert (E2 : Bufio.scanTexts (before ++ long) = ls).
  { unfold Bufio.scanTexts, before.
    rewrite splitLines_terminated_app, splitLines_last by assumption.
    cbn [append]. destruct long as [|c l]; [discriminate L|].
    now apply takeFitting_stop. }
  unfold parseChangelog. now rewrite B, E1, E2.
Qed.

Lemma long_line_ends_the_parse_witness :
  let ls := ["## jest 24.0.0"; "* fixed"] in
  let long := filler (N.to_nat 65536) in
  let rest := "## jest 23.6.0" in
  Forall scannable ls /\ oneLine long = true /\ Bufio.fits long = false
  /\ parseChangelog ("## jest 24.0.0" ++ nl ++ "* fixed" ++ nl ++ long ++ nl ++ rest)
       [tag "v24.0.0"]
     = [tag "v24.0.0"].
Proof.
  intros ls long rest.
  assert (H : Forall scannable ls) by (repeat constructor).
  assert (O : oneLine long = true) by (vm_compute; reflexivity).
  assert (L : Bufio.fits long = false) by (vm_compute; reflexivity).
  split; [exact H|]. split; [exact O|]. split; [exact L|].
  exact (proj1 (proj2 (long_line_ends_the_parse ls long rest [tag "v24.0.0"] H O L))).
Defined.

(** ** The first version of a heading *)

Lemma Find_noDigits pre s :
  noDigits pre = true -> Regexp.Find (pre ++ s) = Regexp.Find s.
Proof.
  induction pre as [|c pre IH]; [reflexivity|].
  cbn [noDigits]. intros H. apply andb_true_iff in H. destruct H as [N H].
  apply negb_true_iff in N. cbn [append Regexp.Find].
  unfold Regexp.matchHere, Regexp.digitsDot. cbn [Regexp.spanDigits].
  rewrite N. now apply IH.
Qed.

Lemma spanDigits_stop s :
  digitFirst s = false -> Regexp.spanDigits s = ("", s).
Proof. destruct s as [|c s]; [reflexivity|]. simpl. now intros ->. Qed.

Lemma matchHere_version m post :
  IsVersion m -> digitFirst post = false ->
  Regexp.matchHere (m ++ post) = Some m.
Proof.
  intros (n1 & n2 & n3 & N1 & N2 & N3 & ->) D.
  unfold Regexp.matchHere. simpl.
  rewrite RegexpFacts.append_assoc. simpl.
  rewrite RegexpFacts.digitsDot_complete by exact N1.
  rewrite RegexpFacts.append_assoc. simpl.
  rewrite RegexpFacts.digitsDot_complete by exact N2.
  apply RegexpFacts.isNumber_inv in N3. destruct N3 as (D3 & c & n3' & ->).
  rewrite RegexpFacts.spanDigits_app by exact D3.
  rewrite spanDigits_stop by exact D. cbn [fst snd].
  now rewrite RegexpFacts.append_nil_r.
Qed.

Lemma Find_matchHere s m :
  Regexp.matchHere s = Some m -> Regexp.Find s = Some m.
Proof. intros H. destruct s; cbn [Regexp.Find]; now rewrite H. Qed.

(** X19.  The first version of a release heading wins.  When the rest of the
    line behind ["## "] has no digit before a version, and no digit right
    behind it, the tag is ["v"] and that version, whatever stands further
    to the right, another version included: the entries of a heading for
    two versions go to the first one only. *)
Theorem first_version_wins (st : State) (pre m post : string) :
  noDigits pre = true ->
  IsVersion m ->
  digitFirst post = false ->
  let st' := processLine st ("## " ++ pre ++ m ++ post) in
  release st' = pre ++ m ++ post /\ name st' = "v" ++ m.
Proof.
  intros P V D st'. unfold st'. rewrite processLine_release by reflexivity.
  cbn [release name GoStrings.sliceFrom append]. split; [reflexivity|].
  unfold Regexp.FindString. rewrite Find_noDigits by exact P.
  now rewrite (Find_matchHere _ _ (matchHere_version m post V D)).
Qed.

Lemma first_version_wins_witness :
  let st := initial [] in
  noDigits "jest " = true /\ IsVersion "22.0.2" /\ digitFirst " && 22.0.3" = false
  /\ name (processLine st "## jest 22.0.2 && 22.0.3") = "v22.0.2".
Proof.
  intros st.
  assert (V : IsVersion "22.0.2") by (exists "22", "0", "2"; now repeat split).
  split; [reflexivity|]. split; [exact V|]. split; [reflexivity|].
  exact (proj2 (first_version_wins st "jest " "22.0.2" " && 22.0.3"
                  eq_refl V eq_refl)).
Defined.

(** ** Each release on its own, each section on its own *)

(** The local variables after an iteration do not depend on the store, and
    the store after it is [stepStore] of the store before. *)
Lemma loopBody_withStore st text rs :
  loopBody (withStore st rs) text
  = withStore (loopBody st text) (stepStore st text rs).
Proof.
  assert (R : releases (loopBody (withStore st rs) text) = stepStore st text rs).
  { rewrite releases_loopBody. unfold stepStore.
    destruct (isBoundary text); [|reflexivity]. now rewrite flushComment_map. }
  rewrite <- R. clear R. unfold loopBody, processLine, withStore.
  destruct st as [r n c f1 f2 f3 rs0]. cbn [release name comment fixes features
    maintenance releases].
  destruct (Nat.eqb _ 0); [reflexivity|].
  destruct (isContinuation _); [reflexivity|].
  unfold releaseHeading. cbn [release name comment fixes features maintenance
    releases].
  destruct (isReleaseHeading _); cbn [release];
    (destruct (negb _); [reflexivity|]);
    unfold bullet, categoryHeading;
    cbn [release name comment fixes features maintenance releases];
    repeat match goal with
           | |- context [if ?b then _ else _] =>
               lazymatch b with
               | isBullet _ => destruct b
               | isCategoryHeading _ => destruct b
               | GoStrings.Contains _ _ => destruct b
               end;
               cbn [release name comment fixes features maintenance releases]
           end; reflexivity.
Qed.

Lemma stepStore_app st text a b :
  stepStore st text (a ++ b) = (stepStore st text a ++ stepStore st text b)%list.
Proof.
  unfold stepStore. destruct (isBoundary text); [|reflexivity].
  destruct (comment st =? ""); [reflexivity|apply map_app].
Qed.

Lemma withStore_withStore st a b : withStore (withStore st a) b = withStore st b.
Proof. reflexivity. Qed.

Lemma fold_withStore_app texts : forall st a b,
  releases (fold_left loopBody texts (withStore st (a ++ b)))
  = (releases (fold_left loopBody texts (withStore st a))
     ++ releases (fold_left loopBody texts (withStore st b)))%list.
Proof.
  induction texts as [|t ts IH]; intros st a b; [reflexivity|].
  cbn [fold_left]. rewrite !loopBody_withStore, stepStore_app.
  rewrite <- (withStore_withStore (loopBody st t) [] (_ ++ _)%list).
  rewrite IH. now rewrite !withStore_withStore.
Qed.

(** X20.  The parser treats each release on its own: the store it returns
    for two stores put end to end is the two stores it returns for each,
    put end to end.  What becomes of a release depends on the changelog and
    on that release, never on the other releases of the store or on its
    place among them. *)
Theorem parse_release_by_release (changelog : string) (rs1 rs2 : list Release) :
  parseChangelog changelog (rs1 ++ rs2)
  = (parseChangelog changelog rs1 ++ parseChangelog changelog rs2)%list.
Proof.
  apply (fold_withStore_app (Bufio.scanTexts changelog) (initial [])).
Qed.

(** X21.  The parser can be run section by section.  A release heading
    starts from nothing but the store: parsing up to and with a release
    heading, then parsing from that heading on, over the store the first
    parse returned, gives the store that parsing the whole gives. *)
Theorem parse_section_by_section
  (before after : list string) (heading : string) (rs : list Release) :
  GoStrings.HasPrefix (GoStrings.TrimRight heading cutset) "## " = true ->
  parseLines (before ++ heading :: after) rs
  = parseLines (heading :: after) (parseLines (before ++ [heading]) rs).
Proof.
  intros H. unfold parseLines.
  rewrite fold_left_app, fold_left_snoc. cbn [fold_left]. f_equal. f_equal.
  unfold loopBody. rewrite !processLine_release by exact H. reflexivity.
Qed.

Lemma parse_section_by_section_witness :
  let before := ["## jest 24.0.0"; "### Fixes"; "* fixed"] in
  let after := ["* older"; "## jest 23.5.0"] in
  let rs := [tag "v24.0.0"; tag "v23.6.0"] in
  GoStrings.HasPrefix (GoStrings.TrimRight "## jest 23.6.0" cutset) "## " = true
  /\ parseLines (before ++ "## jest 23.6.0" :: after) rs
     = parseLines ("## jest 23.6.0" :: after)
         (parseLines (before ++ ["## jest 23.6.0"]) rs).
Proof.
  intros before after rs. split; [reflexivity|].
  exact (parse_section_by_section before after "## jest 23.6.0" rs eq_refl).
Defined.

(** ** After one round trip *)

Lemma replacement_seqLen t :
  Utf8.seqLen (Utf8.replacement ++ t) = Some 3.
Proof. reflexivity. Qed.

Lemma pieces_of_bytes ps : forall fuel,
  Forall wfPiece ps ->
  String.length (String.concat "" (map Utf8.pieceBytes ps)) <= fuel ->
  existsb Utf8.isBad
    (Utf8.pieces fuel (String.concat "" (map Utf8.pieceBytes ps))) = false.
Proof.
  induction ps as [|p ps IH]; intros fuel W L.
  - now destruct fuel.
  - inversion W as [|? ? Wp Wps]; subst. cbn [map] in *.
    rewrite Utf8Facts.concat_cons in *. rewrite RegexpFacts.length_append in L.
    set (rest := String.concat "" (map Utf8.pieceBytes ps)) in *.
    destruct p as [c|bytes|c]; cbn [Utf8.pieceBytes] in *.
    + destruct fuel as [|fuel]; [simpl in L; lia|].
      cbn [append Utf8.pieces]. cbn [wfPiece] in Wp. rewrite Wp.
      cbn [existsb Utf8.isBad orb]. apply IH; [exact Wps|simpl in L; lia].
    + destruct Wp as (c & r & -> & A & S).
      destruct fuel as [|fuel]; [simpl in L; lia|].
      change (String c r ++ rest) with (String c (r ++ rest)).
      cbn [Utf8.pieces]. rewrite A.
      change (String c (r ++ rest)) with (String c r ++ rest).
      rewrite S, Utf8Facts.sliceFrom_length.
      cbn [existsb Utf8.isBad orb]. apply IH; [exact Wps|simpl in L; lia].
    + destruct fuel as [|fuel]; [simpl in L; lia|].
      change (Utf8.pieces (S fuel) (Utf8.replacement ++ rest))
        with (Utf8.Seq Utf8.replacement :: Utf8.pieces fuel rest).
      cbn [existsb Utf8.isBad orb]. apply IH; [exact Wps|simpl in L; lia].
Qed.

Lemma coerce_ValidString s : Utf8.ValidString (Utf8.coerce s) = true.
Proof.
  unfold Utf8.ValidString, Utf8.coerce. apply negb_true_iff.
  apply pieces_of_bytes; [apply Utf8Facts.pieces_wf|lia].
Qed.

Lemma coerce_validStrings_all l : validStrings (map Utf8.coerce l) = true.
Proof.
  induction l as [|s l IH]; [reflexivity|]. simpl.
  now rewrite coerce_ValidString, IH.
Qed.

Lemma coerceRelease_valid r : validRelease (coerceRelease r) = true.
Proof.
  unfold validRelease, coerceRelease, coerceCommit. simpl.
  rewrite !coerce_ValidString. simpl.
  destruct (Release_ReleaseNotes r) as [n|]; [|reflexivity]. simpl.
  unfold validNotes, coerceNotes. simpl.
  now rewrite !coerce_ValidString, !coerce_validStrings_all.
Qed.

(** X22.  After one round trip the store is stable: what [json.Unmarshal]
    reads from the bytes [json.Marshal] has written for any store holds
    valid UTF-8 only, and written and read again it comes back as it is. *)
Theorem second_round_trip_exact (rs rs' : list Release) :
  Json.Unmarshal (Json.Marshal rs) = Some rs' ->
  validStore rs' = true
  /\ Json.Unmarshal (Json.Marshal rs') = Some rs'.
Proof.
  rewrite JsonFacts.Unmarshal_Marshal. intros [= <-].
  assert (V : validStore (map coerceRelease rs) = true).
  { induction rs as [|r rs IH]; [reflexivity|]. simpl.
    now rewrite coerceRelease_valid, IH. }
  split; [exact V|].
  rewrite JsonFacts.Unmarshal_Marshal. f_equal.
  now apply JsonFacts.coerce_validStore.
Qed.

Lemma second_round_trip_exact_witness :
  let store (entry : string) :=
    [mkRelease "v24.0.0" "" "" (mkCommit "" "")
       (Some (mkReleaseNotes "jest 24.0.0" "v24.0.0" [entry] [] [] []))] in
  let rs := store ("caf" ++ String (ascii_of_nat 233) "") in
  let rs' := store ("caf" ++ Utf8.replacement) in
  Json.Unmarshal (Json.Marshal rs) = Some rs'
  /\ validStore rs = false
  /\ validStore rs' = true
  /\ Json.Unmarshal (Json.Marshal rs') = Some rs'.
Proof.
  intros store rs rs'.
  assert (U : Json.Unmarshal (Json.Marshal rs) = Some rs') by (vm_compute; reflexivity).
  split; [exact U|]. split; [vm_compute; reflexivity|].
  exact (second_round_trip_exact rs rs' U).
Defined.
